(** * Club statistics for chess.com: a model of [club_stats.py]

    The script fetches a club roster, then one profile document and one
    statistics document per member, merges them into a list of member
    dictionaries, writes the list as a table and optionally plots six
    ratings per member.

    The embedding keeps the data as the script has it: decoded JSON
    documents are Python values, a member is a dictionary from attribute
    name to value, the list of members is a list of such dictionaries in
    the order the script holds them.  Exceptions and [exit] are results;
    the network, standard output, the written table and the chart are a
    state threaded through the run. *)

From Stdlib Require Import ZArith String Ascii List Sorted Permutation.
From Stdlib Require Import Floats.SpecFloat.
From stdpp Require Import gmap strings list sorting pretty.

Local Open Scope string_scope.
Local Open Scope Z_scope.

(** ** Python values *)

(** What [json.loads] can return.  An [int] is unbounded, a [float] is kept
    by sign, mantissa and exponent, a [str] by its UTF-8 bytes (byte-wise
    lexicographic order on UTF-8 is code point order, which is the order
    Python compares [str] by), a [dict] by its items in insertion order. *)
Unset Elimination Schemes.
Inductive value :=
| VNone
| VBool (b : bool)
| VInt (n : Z)
| VFloat (f : spec_float)
| VStr (s : string)
| VList (l : list value)
| VDict (d : list (string * value)).
Set Elimination Schemes.

(** The empty string, which the script stores for "not available". *)
Definition EMPTY : value := VStr "".

Inductive exn :=
| KeyError | TypeError | AttributeError | ValueError | OverflowError
| JSONDecodeError.

(** How an expression ends: with a value or with an exception. *)
Inductive result (A : Type) :=
| Ok (a : A)
| Raise (e : exn).
Arguments Ok {A} a.
Arguments Raise {A} e.

Definition rbind {A B} (r : result A) (k : A -> result B) : result B :=
  match r with
  | Ok a => k a
  | Raise e => Raise e
  end.

Notation "'let!' x := e 'in' k" := (rbind e (fun x => k))
  (at level 10, x name, e at level 100, k at level 200).

Fixpoint map_result {A B} (f : A -> result B) (l : list A) : result (list B) :=
  match l with
  | [] => Ok []
  | a :: l' => let! b := f a in let! bs := map_result f l' in Ok (b :: bs)
  end.

Definition is_some {A} (o : option A) : bool :=
  match o with
  | Some _ => true
  | None => false
  end.

(** [d[k]] on the items of a dict. *)
Fixpoint dict_get (k : string) (d : list (string * value)) : option value :=
  match d with
  | [] => None
  | (k', v) :: d' => if String.eqb k k' then Some v else dict_get k d'
  end.

(** [v[k]] with a [str] subscript: only a dict accepts it, and raises
    [KeyError] when it has no such key. *)
Definition py_getitem (v : value) (k : string) : result value :=
  match v with
  | VDict d => match dict_get k d with
               | Some x => Ok x
               | None => Raise KeyError
               end
  | _ => Raise TypeError
  end.

Definition is_str (k : string) (v : value) : bool :=
  match v with
  | VStr s => String.eqb s k
  | _ => false
  end.

(** [k in v] for a [str] [k]: key membership on a dict, element membership
    on a list, substring on a [str]; the other values are not containers. *)
Definition py_contains (k : string) (v : value) : result bool :=
  match v with
  | VDict d => Ok (is_some (dict_get k d))
  | VList l => Ok (existsb (is_str k) l)
  | VStr s => Ok (is_some (String.index 0 k s))
  | _ => Raise TypeError
  end.

(** [v == 0]: numbers compare by value across [bool], [int] and [float]. *)
Definition py_eq_zero (v : value) : bool :=
  match v with
  | VBool false => true
  | VInt 0 => true
  | VFloat (S754_zero _) => true
  | _ => false
  end.

(** [v != ""]. *)
Definition py_ne_empty (v : value) : bool :=
  match v with
  | VStr "" => false
  | _ => true
  end.

(** The characters of a [str]: a UTF-8 continuation byte (10xxxxxx) belongs
    to the character before it. *)
Definition is_continuation (a : ascii) : bool :=
  let n := N_of_ascii a in (128 <=? n)%N && (n <? 192)%N.

Definition starts_with_continuation (s : string) : bool :=
  match s with
  | String b _ => is_continuation b
  | EmptyString => false
  end.

Fixpoint py_chars (s : string) : list string :=
  match s with
  | EmptyString => []
  | String a s' =>
      match py_chars s' with
      | c :: cs =>
          if starts_with_continuation s' then String a c :: cs
          else String a "" :: c :: cs
      | [] => [String a ""]
      end
  end.

(** What [for x in v] walks over. *)
Definition py_iter (v : value) : result (list value) :=
  match v with
  | VList l => Ok l
  | VDict d => Ok (map (fun kv => VStr (fst kv)) d)
  | VStr s => Ok (map VStr (py_chars s))
  | _ => Raise TypeError
  end.

(** [int(f)] on a float truncates toward zero. *)
Definition float_trunc (f : spec_float) : result Z :=
  match f with
  | S754_zero _ => Ok 0
  | S754_infinity _ => Raise OverflowError
  | S754_nan => Raise ValueError
  | S754_finite s m e =>
      let a := Z.shiftl (Z.pos m) e in Ok (if s then - a else a)
  end.

(** ** Members *)

(** A member is a Python dict with [str] keys. *)
Abbreviation member := (gmap string value).

Definition member_get (m : member) (k : string) : result value :=
  match m !! k with
  | Some v => Ok v
  | None => Raise KeyError
  end.

(** ** The run: network, output, table and chart *)

(** What a request gets: no answer ([urlopen] or [read] raises), bytes that
    [json.loads] rejects, or a document. *)
Inductive reply :=
| Unreachable
| Garbage
| Doc (v : value).

Record table := {
  header : list string;
  rows : list (list (option value))
}.

(** What the run has done so far: the URLs requested (oldest first), the
    lines printed, the table written, the lines plotted, and whether the
    chart was shown. *)
Record state := {
  requests : list string;
  stdout : list string;
  report : option table;
  lines : list (string * list Z);
  shown : bool
}.

Definition start : state :=
  {| requests := []; stdout := []; report := None; lines := [];
     shown := false |}.

(** How a piece of the script ends: it is done, an exception is still
    propagating, or [exit(code)] was called. *)
Inductive outcome (A : Type) :=
| Done (a : A)
| Abort (e : exn)
| Exit (code : Z).
Arguments Done {A} a.
Arguments Abort {A} e.
Arguments Exit {A} code.

Definition prog (A : Type) : Type := state -> state * outcome A.

Definition pbind {A B} (p : prog A) (k : A -> prog B) : prog B :=
  fun st =>
    match p st with
    | (st', Done a) => k a st'
    | (st', Abort e) => (st', Abort e)
    | (st', Exit c) => (st', Exit c)
    end.

Notation "'let*' x := e 'in' k" := (pbind e (fun x => k))
  (at level 10, x name, e at level 100, k at level 200).
Notation "e ;* k" := (pbind e (fun _ => k))
  (at level 100, k at level 200, right associativity).

Definition lift {A} (r : result A) : prog A :=
  fun st =>
    match r with
    | Ok a => (st, Done a)
    | Raise e => (st, Abort e)
    end.

Definition print (s : string) : prog unit :=
  fun st =>
    ({| requests := requests st; stdout := stdout st ++ [s];
        report := report st; lines := lines st; shown := shown st |},
     Done tt).

Definition exit {A} (code : Z) : prog A := fun st => (st, Exit code).

Fixpoint for_each (f : member -> prog member) (ms : list member)
  : prog (list member) :=
  match ms with
  | [] => lift (Ok [])
  | m :: ms' =>
      let* m' := f m in
      let* r := for_each f ms' in
      lift (Ok (m' :: r))
  end.

(** Two builtins of the interpreter that the script calls and whose code is
    not part of it.  [int_of_str s] is [int(s)] on a [str]: the integer, or
    [None] where [int] raises [ValueError].  [sort_other] is [list.sort] on
    two or more keys that are not all [str] (it may raise [TypeError] on
    keys that do not compare); all that is used of it is that a sort
    permutes. *)
Class Builtins := {
  int_of_str : string -> option Z;
  sort_other : list (value * member) -> result (list member);
  sort_other_perm : forall l l',
    sort_other l = Ok l' -> Permutation (map snd l) l'
}.

Section Script.
Context `{Builtins}.

(** [int(v)]. *)
Definition py_int (v : value) : result Z :=
  match v with
  | VBool b => Ok (if b then 1 else 0)
  | VInt n => Ok n
  | VFloat f => float_trunc f
  | VStr s => match int_of_str s with
              | Some n => Ok n
              | None => Raise ValueError
              end
  | VNone | VList _ | VDict _ => Raise TypeError
  end.

(** ** The roster (lines 36-55) *)

(** The inner loop: one new dict per element, holding its [username]. *)
Definition new_member (element : value) : result member :=
  let! u := py_getitem element "username" in
  Ok (<["username" := u]> (∅ : member)).

Definition bucket_members (type_list : value) : result (list member) :=
  let! elements := py_iter type_list in
  map_result new_member elements.

(** The outer loop over [club_members.values()]; only a dict has [values]. *)
Definition collect_members (club_members : value) : result (list member) :=
  match club_members with
  | VDict d =>
      let! per_bucket := map_result (fun kv => bucket_members (snd kv)) d in
      Ok (concat per_bucket)
  | _ => Raise AttributeError
  end.

(** [members.sort(key=lambda i: i["username"])]: the keys are computed
    first; the sort is stable and compares keys with [<]; a list of one
    member is sorted without comparing anything. *)
Definition keyed (m : member) : result (value * member) :=
  let! k := member_get m "username" in Ok (k, m).

Fixpoint str_keys (l : list (value * member)) : option (list (string * member)) :=
  match l with
  | [] => Some []
  | (VStr s, m) :: l' =>
      match str_keys l' with
      | Some r => Some ((s, m) :: r)
      | None => None
      end
  | _ => None
  end.

Fixpoint insert_by_key (x : string * member) (l : list (string * member))
  : list (string * member) :=
  match l with
  | [] => [x]
  | y :: l' =>
      if String.ltb (fst y) (fst x) then y :: insert_by_key x l'
      else x :: y :: l'
  end.

Fixpoint sort_by_key (l : list (string * member)) : list (string * member) :=
  match l with
  | [] => []
  | x :: l' => insert_by_key x (sort_by_key l')
  end.

Definition sort_members (members : list member) : result (list member) :=
  let! ks := map_result keyed members in
  match str_keys ks with
  | Some l => Ok (map snd (sort_by_key l))
  | None =>
      match ks with
      | [] | [_] => Ok members
      | _ => sort_other ks
      end
  end.

Definition load_members (club_members : value) : result (list member) :=
  let! members := collect_members club_members in
  sort_members members.

(** ** Profile fields (lines 78-82) *)

(** [player_data[k] if k in player_data else ""]. *)
Definition field_or_empty (k : string) (player_data : value) : result value :=
  let! c := py_contains k player_data in
  if (c : bool) then py_getitem player_data k else Ok EMPTY.

Definition profile_fields (m : member) (player_data : value) : result member :=
  let! name := field_or_empty "name" player_data in
  let m := <["name" := name]> m in
  let! location := field_or_empty "location" player_data in
  let m := <["location" := location]> m in
  let! status := field_or_empty "status" player_data in
  Ok (<["status" := status]> m).

(** ** Statistics fields (lines 85-93, 112-134) *)

Definition rating_lists : list (string * string) :=
  [ ("chess_daily", "last");
    ("chess_rapid", "last");
    ("chess_blitz", "last");
    ("chess_bullet", "last");
    ("chess960_daily", "last");
    ("tactics", "highest");
    ("lessons", "highest") ].

(** [try: ... except KeyError: ""]. *)
Definition except_KeyError (r : result value) : result value :=
  match r with
  | Raise KeyError => Ok EMPTY
  | _ => r
  end.

(** [player_data[a][b][c]]. *)
Definition get_path (player_data : value) (a b c : string) : result value :=
  let! x := py_getitem player_data a in
  let! y := py_getitem x b in
  py_getitem y c.

Definition fide_field (player_data : value) : result value :=
  let! v := field_or_empty "fide" player_data in
  Ok (if py_eq_zero v then EMPTY else v).

Definition puzzle_rush_field (player_data : value) : result value :=
  except_KeyError (get_path player_data "puzzle_rush" "best" "score").

Definition rating_field (player_data : value) (rating_type selector : string)
  : result value :=
  except_KeyError (get_path player_data rating_type selector "rating").

(** The loop over [rating_lists], in the order of the dict literal. *)
Fixpoint rating_loop (l : list (string * string)) (m : member)
  (player_data : value) : result member :=
  match l with
  | [] => Ok m
  | (rating_type, selector) :: l' =>
      let! v := rating_field player_data rating_type selector in
      rating_loop l' (<[rating_type := v]> m) player_data
  end.

Definition stats_fields (m : member) (player_data : value) : result member :=
  let! fide := fide_field player_data in
  let m := <["fide" := fide]> m in
  let! pr := puzzle_rush_field player_data in
  let m := <["puzzle_rush" := pr]> m in
  rating_loop rating_lists m player_data.

(** ** The chart vectors (lines 184-209) *)

Definition rating_types : list string :=
  [ "chess_daily"; "chess_rapid"; "chess_blitz"; "chess_bullet";
    "chess960_daily"; "tactics" ].

Definition rating_names : list string :=
  [ "Daily"; "Rapid"; "Blitz"; "Bullet"; "Daily 960"; "Tactics" ].

(** [int(member[type]) if member[type] != "" else 800]. *)
Definition chart_value (m : member) (type : string) : result Z :=
  let! v := member_get m type in
  if py_ne_empty v then py_int v else Ok 800.

Definition rating_vector (m : member) : result (list Z) :=
  map_result (chart_value m) rating_types.

(** ** The stages of the run *)

(** The configuration constants at the top of the script, and the network:
    [web n url] is what the request number [n] of the run (from 0) gets
    when it asks for [url]. *)
Context (CLUB_NAME : string) (PLOT : bool) (web : nat -> string -> reply).

Definition log_request (url : string) (st : state) : state :=
  {| requests := requests st ++ [url]; stdout := stdout st;
     report := report st; lines := lines st; shown := shown st |}.

(** The [try: with urlopen(url) as response: source = response.read()]
    block with its bare [except:], which also catches what evaluating the
    URL raises.  The source read is kept by what [json.loads] will make of
    it: [None] when it is not JSON. *)
Definition fetch (url : result string) : prog (option value) :=
  fun st =>
    match url with
    | Ok u =>
        let st' := log_request u st in
        match web (length (requests st)) u with
        | Unreachable =>
            (print "Error: Unable to access web site" ;* exit 1) st'
        | Garbage => (st', Done None)
        | Doc v => (st', Done (Some v))
        end
    | _ => (print "Error: Unable to access web site" ;* exit 1) st
    end.

Definition json_loads (source : option value) : result value :=
  match source with
  | Some v => Ok v
  | None => Raise JSONDecodeError
  end.

Definition roster_url : string :=
  "https://api.chess.com/pub/club/" ++ CLUB_NAME ++ "/members".

(** ["https://api.chess.com/pub/player/" + member["username"] + suffix]:
    [+] on a [str] takes only a [str]. *)
Definition player_url (m : member) (suffix : string) : result string :=
  let! u := member_get m "username" in
  match u with
  | VStr s => Ok ("https://api.chess.com/pub/player/" ++ s ++ suffix)
  | _ => Raise TypeError
  end.

(** The body of the loop of lines 65-82. *)
Definition profile_member (m : member) : prog member :=
  let* source := fetch (player_url m "") in
  let* player_data := lift (json_loads source) in
  lift (profile_fields m player_data).

(** The body of the loop of lines 99-134. *)
Definition stats_member (m : member) : prog member :=
  let* source := fetch (player_url m "/stats") in
  let* player_data := lift (json_loads source) in
  lift (stats_fields m player_data).

(** Lines 138-175: the frame built from [members], written with the given
    columns under the given headers.  A cell is [None] where a record has
    no such key.  What the spreadsheet library does beyond receiving these
    rows is not part of the script. *)
Definition columns : list string :=
  [ "username"; "name"; "fide"; "chess_daily"; "chess_rapid";
    "chess_blitz"; "chess_bullet"; "chess960_daily"; "tactics"; "lessons";
    "puzzle_rush"; "location"; "status" ].

Definition headers : list string :=
  [ "Username"; "Name"; "FIDE"; "Daily"; "Rapid"; "Blitz"; "Bullet";
    "960 Daily"; "Tactics"; "Lessons"; "Puzzle"; "Location"; "Status" ].

Definition row_of (m : member) : list (option value) :=
  map (fun c => m !! c) columns.

Definition to_excel (members : list member) : prog unit :=
  fun st =>
    ({| requests := requests st; stdout := stdout st;
        report := Some {| header := headers; rows := map row_of members |};
        lines := lines st; shown := shown st |},
     Done tt).

(** Lines 202-209.  [ratings] is keyed by [uid]; every [uid] that reaches
    this loop was concatenated to a URL in both loops above, so it is a
    [str], and [ratings] is kept as a map from [str]. *)
Definition member_uid (m : member) : result string :=
  let! u := member_get m "username" in
  match u with
  | VStr s => Ok s
  | _ => Raise TypeError
  end.

Fixpoint fill_ratings (ms : list member) (ratings : gmap string (list Z))
  : result (gmap string (list Z)) :=
  match ms with
  | [] => Ok ratings
  | m :: ms' =>
      let! uid := member_uid m in
      let! v := rating_vector m in
      fill_ratings ms' (<[uid := v]> ratings)
  end.

(** Lines 212-214: one [plt.plot(rating_names, ratings[uid], label=uid)]
    per member. *)
Definition plot (label : string) (ys : list Z) : prog unit :=
  fun st =>
    ({| requests := requests st; stdout := stdout st; report := report st;
        lines := lines st ++ [(label, ys)]; shown := shown st |},
     Done tt).

Fixpoint plot_members (ms : list member) (ratings : gmap string (list Z))
  : prog unit :=
  match ms with
  | [] => lift (Ok tt)
  | m :: ms' =>
      let* uid := lift (member_uid m) in
      let* ys := lift (match ratings !! uid with
                       | Some ys => Ok ys
                       | None => Raise KeyError
                       end) in
      plot uid ys ;*
      plot_members ms' ratings
  end.

Definition show : prog unit :=
  fun st =>
    ({| requests := requests st; stdout := stdout st; report := report st;
        lines := lines st; shown := true |},
     Done tt).

(** The three loading stages, the output, then the whole script. *)
Definition roster_stage : prog (list member) :=
  print "Getting list of club members from web site..." ;*
  let* source := fetch (Ok roster_url) in
  let* club_members := lift (json_loads source) in
  let* members := lift (load_members club_members) in
  print ("Club Name:  " ++ CLUB_NAME) ;*
  print ("Number of Club members:  " ++ pretty (length members)) ;*
  lift (Ok members).

Definition profile_stage (members : list member) : prog (list member) :=
  print "Getting Players information from web site..." ;*
  for_each profile_member members.

Definition stats_stage (members : list member) : prog (list member) :=
  print "Getting Stats information from web site..." ;*
  for_each stats_member members.

(** Lines 182-222.  What the plotting library does with the calls it gets
    is not part of the script. *)
Definition chart_stage (members : list member) : prog unit :=
  print "Drawing chart..." ;*
  let* ratings := lift (fill_ratings members ∅) in
  plot_members members ratings ;*
  show.

(** Lines 136-222: the table, then the chart unless [PLOT] is off. *)
Definition output_stage (members : list member) : prog unit :=
  print "Writing output file" ;*
  to_excel members ;*
  if negb PLOT then exit 0 else chart_stage members.

Definition script : prog unit :=
  let* members := roster_stage in
  let* members := profile_stage members in
  let* members := stats_stage members in
  output_stage members.

Definition run : state * outcome unit := script start.

(** The exit status of the process: 0 at the end of the script, the code
    given to [exit], 1 for an exception nobody caught. *)
Definition exit_status {A} (r : outcome A) : Z :=
  match r with
  | Done _ => 0
  | Exit c => c
  | Abort _ => 1
  end.

End Script.

(** ** Definitions for the statements *)

(** The record the roster loop creates for a username. *)
Definition id_record (s : string) : member := <["username" := VStr s]> ∅.

(** The usernames of a list of members, when every one of them is a [str]. *)
Fixpoint str_names (ms : list member) : option (list string) :=
  match ms with
  | [] => Some []
  | m :: ms' =>
      match m !! "username", str_names ms' with
      | Some (VStr s), Some r => Some (s :: r)
      | _, _ => None
      end
  end.

(** A roster response is a mapping from bucket name to sequences of member
    objects, each with a [str] under [username].  [roster_names] lists the
    usernames in the order the response has them, bucket by bucket. *)
Definition object_username (e : value) : option string :=
  match e with
  | VDict o => match dict_get "username" o with
               | Some (VStr s) => Some s
               | _ => None
               end
  | _ => None
  end.

Fixpoint bucket_names (l : list value) : option (list string) :=
  match l with
  | [] => Some []
  | e :: l' =>
      match object_username e, bucket_names l' with
      | Some s, Some r => Some (s :: r)
      | _, _ => None
      end
  end.

Fixpoint roster_names (d : list (string * value)) : option (list string) :=
  match d with
  | [] => Some []
  | (_, VList l) :: d' =>
      match bucket_names l, roster_names d' with
      | Some a, Some b => Some (a ++ b)%list
      | _, _ => None
      end
  | _ => None
  end.

(** The identities the specification asks for: the usernames with
    duplicates collapsed, sorted ascending. *)
Definition spec_identities (names : list string) : list string :=
  merge_sort String.le (remove_dups names).

(** Builtins for running the examples, none of which reaches them: this
    [int] takes no [str] and this sort takes only [str] keys. *)
Definition example_builtins : Builtins := {|
  int_of_str := fun _ => None;
  sort_other := fun _ => Raise TypeError;
  sort_other_perm := ltac:(intros; discriminate)
|}.

Definition member_object (s : string) : value := VDict [("username", VStr s)].

(** The roster of the specification's scenario: [alice] is listed in two
    buckets. *)
Definition roster_twice : list (string * value) :=
  [ ("weekly", VList [member_object "alice"]);
    ("all_time", VList [member_object "Bob"; member_object "alice"]) ].

Definition key_le (x y : string * member) : Prop := String.le (fst x) (fst y).

Definition has_str_name (m : member) : Prop :=
  exists s, m !! "username" = Some (VStr s).

(** A list of keys paired with members in which every key is the member's
    username. *)
Definition named (l : list (string * member)) : Prop :=
  Forall (fun p => snd p !! "username" = Some (VStr (fst p))) l.

(** The fields [stats_fields] stores, in the order it stores them, each
    with the result of reading it. *)
Definition stats_results (player_data : value) : list (string * result value) :=
  ("fide", fide_field player_data)
  :: ("puzzle_rush", puzzle_rush_field player_data)
  :: map (fun ts => (fst ts, rating_field player_data (fst ts) (snd ts)))
       rating_lists.

Fixpoint store_all (l : list (string * result value)) (m : member)
  : result member :=
  match l with
  | [] => Ok m
  | (k, r) :: l' => let! v := r in store_all l' (<[k := v]> m)
  end.

(** Each field is read from the top-level key of its own name. *)
Definition fide_of (o : option value) : result value :=
  Ok (match o with
      | Some v => if py_eq_zero v then EMPTY else v
      | None => EMPTY
      end).

Definition nested_of (b c : string) (o : option value) : result value :=
  except_KeyError
    (match o with
     | Some x => let! y := py_getitem x b in py_getitem y c
     | None => Raise KeyError
     end).

Definition stats_readers : list (string * (option value -> result value)) :=
  ("fide", fide_of)
  :: ("puzzle_rush", nested_of "best" "score")
  :: map (fun ts => (fst ts, nested_of (snd ts) "rating")) rating_lists.

(** The eight fields read through a nested path [a.b.c]; the field is
    named as the first key. *)
Definition nested_fields : list (string * (string * string)) :=
  ("puzzle_rush", ("best", "score"))
  :: map (fun ts => (fst ts, (snd ts, "rating"))) rating_lists.


(** Every segment of [a.b] that is present holds a mapping, and so does
    the document. *)
Definition segments_are_mappings (player_data : value) (a b : string) : Prop :=
  match player_data with
  | VDict d =>
      match dict_get a d with
      | None => True
      | Some (VDict x) =>
          match dict_get b x with
          | None | Some (VDict _) => True
          | Some _ => False
          end
      | Some _ => False
      end
  | _ => False
  end.

(** The sub-key a rating field does not read. *)
Definition other_selector (selector : string) : string :=
  if String.eqb selector "last" then "highest" else "last".


(** Two documents that differ only under the sub-key [sub_key] of the
    game type [g], which holds a mapping in both. *)
Definition differ_only_under (g sub_key : string)
  (d d' : list (string * value)) : Prop :=
  (forall k, k <> g -> dict_get k d = dict_get k d') /\
  exists sub sub',
    dict_get g d = Some (VDict sub) /\
    dict_get g d' = Some (VDict sub') /\
    forall k, k <> sub_key -> dict_get k sub = dict_get k sub'.

(** The value a document holds at the end of a path of keys. *)
Fixpoint value_at (v : value) (path : list string) : option value :=
  match path with
  | [] => Some v
  | k :: path' =>
      match v with
      | VDict d => match dict_get k d with
                   | Some x => value_at x path'
                   | None => None
                   end
      | _ => None
      end
  end.

(** The twelve optional attributes: whether the attribute is read from the
    profile document (or else from the statistics document), and the path
    it is read at. *)
Definition attribute_paths : list (string * (bool * list string)) :=
  [ ("name", (true, ["name"]));
    ("location", (true, ["location"]));
    ("status", (true, ["status"]));
    ("fide", (false, ["fide"]));
    ("puzzle_rush", (false, ["puzzle_rush"; "best"; "score"])) ]
  ++ map (fun ts => (fst ts, (false, [fst ts; snd ts; "rating"]))) rating_lists.

(** What the profile loop stores for a profile document that is a mapping. *)
Definition top_or_empty (d : list (string * value)) (k : string) : value :=
  match dict_get k d with
  | Some v => v
  | None => EMPTY
  end.

Definition profile_record (d : list (string * value)) (m : member) : member :=
  <["status" := top_or_empty d "status"]>
    (<["location" := top_or_empty d "location"]>
       (<["name" := top_or_empty d "name"]> m)).

(** A rating cell of a record: an integer, or nothing, held as the empty
    string. *)
Definition cell_value (c : option Z) : value :=
  match c with
  | Some n => VInt n
  | None => EMPTY
  end.

(** From a state where [P] holds, [p] ends in a state and with an outcome
    related by [Q]. *)
Definition triple {A} (P : state -> Prop) (p : prog A)
  (Q : state -> outcome A -> Prop) : Prop :=
  forall st, P st -> Q (fst (p st)) (snd (p st)).

(** A piece of the script that leaves [f] of the state as it is. *)
Definition keeps {A X} (f : state -> X) (p : prog A) : Prop :=
  forall st, f (fst (p st)) = f st.

Definition username (m : member) : option value := m !! "username".

(** From request number [n] on, the requests for the members [ms], made
    with [suffix], get the documents [docs], one each, all mappings. *)
Fixpoint answers_with (web : nat -> string -> reply) (n : nat)
  (suffix : string) (ms : list member) (docs : list (list (string * value)))
  : Prop :=
  match ms, docs with
  | [], [] => True
  | m :: ms', d :: docs' =>
      (exists s,
         m !! "username" = Some (VStr s) /\
         web n ("https://api.chess.com/pub/player/" ++ s ++ suffix)
           = Doc (VDict d)) /\
      answers_with web (S n) suffix ms' docs'
  | _, _ => False
  end.

(** A run that gets the roster [roster_twice] and then an empty mapping
    for every profile and statistics request. *)
Definition web_empty_documents (n : nat) (url : string) : reply :=
  match n with
  | O => Doc (VDict roster_twice)
  | _ => Doc (VDict [])
  end.

(** A run whose roster lists [ann], [bob] and [cy], and whose request for
    the profile of the third member gets no answer. *)
Definition web_third_unanswered (n : nat) (url : string) : reply :=
  match n with
  | 0%nat => Doc (VDict [("all_time", VList [member_object "ann";
                                            member_object "bob";
                                            member_object "cy"])])
  | 3%nat => Unreachable
  | _ => Doc (VDict [])
  end.

(** A run with one member, whose statistics document holds the number 5
    under [tactics]. *)
Definition web_tactics_number (n : nat) (url : string) : reply :=
  match n with
  | 0%nat => Doc (VDict [("all_time", VList [member_object "ann"])])
  | 1%nat => Doc (VDict [])
  | _ => Doc (VDict [("tactics", VInt 5)])
  end.

(** A statistics document for the blitz rating, with the rating [peak]
    under ["highest"]. *)
Definition blitz_document (peak : Z) : list (string * value) :=
  [ ("chess_blitz",
     VDict [ ("last", VDict [("rating", VInt 900)]);
             ("highest", VDict [("rating", VInt peak)]) ]) ].

(** A record with three ratings and three empty strings. *)
Definition charted_record : member :=
  list_to_map
    [ ("username", VStr "ann");
      ("chess_daily", VInt 1200); ("chess_rapid", EMPTY);
      ("chess_blitz", VInt 900); ("chess_bullet", EMPTY);
      ("chess960_daily", EMPTY); ("tactics", VInt 1500) ].

(** Every request gets a profile that has a [name] and nothing else. *)
Definition web_names_only (n : nat) (url : string) : reply :=
  Doc (VDict [("name", VStr "A. N. Other")]).

(** ** What holds of the state during a run *)

Section Invariants.
Context (web : nat -> string -> reply).

(** Every request made so far got an answer. *)
Definition answered (st : state) : Prop :=
  forall n url, requests st !! n = Some url -> web n url <> Unreachable.

(** No request but the last one made went unanswered. *)
Definition only_last_may_fail (st : state) : Prop :=
  forall n url, requests st !! n = Some url -> web n url = Unreachable ->
                S n = length (requests st).

(** Nothing was written or drawn. *)
Definition quiet (st : state) : Prop :=
  report st = None /\ lines st = [] /\ shown st = false.

Definition clean (st : state) : Prop := answered st /\ quiet st.

(** What holds after a piece of the three loading stages: it goes on only
    with every request answered, and it exits only with status 1. *)
Definition loading {A} (st : state) (r : outcome A) : Prop :=
  match r with
  | Done _ | Abort _ => clean st
  | Exit c => c = 1 /\ quiet st /\ only_last_may_fail st
  end.

(** How the script ends: with every request answered, or with status 1
    right after a request that was not, nothing written or drawn. *)
Definition ending (st : state) (r : outcome unit) : Prop :=
  answered st \/
  (r = Exit 1 /\ quiet st /\ only_last_may_fail st).

End Invariants.

(** ** Definitions for the properties of the whole script *)

(** The keys the two enrichments store. *)
Definition profile_keys : list string := ["name"; "location"; "status"].

Definition stats_keys : list string :=
  "fide" :: "puzzle_rush" :: map fst rating_lists.

(** A record that holds a username and nothing else. *)
Definition username_only (m : member) : Prop :=
  exists u, m = <["username" := u]> ∅.

(** A roster whose buckets are lists of objects. *)
Definition lists_objects (d : list (string * value)) : Prop :=
  Forall (fun kv => exists l, snd kv = VList l /\
                              Forall (fun e => exists o, e = VDict o) l) d.

(** A roster in which some listed object has no [username]. *)
Definition some_object_unnamed (d : list (string * value)) : Prop :=
  Exists (fun kv => exists l, snd kv = VList l /\
            Exists (fun e => exists o, e = VDict o /\
                                       dict_get "username" o = None) l) d.

(** A roster with an object that has no [username]. *)
Definition roster_unnamed : list (string * value) :=
  [ ("weekly", VList [member_object "ann"]);
    ("all_time", VList [member_object "bob"; VDict [("joined", VInt 7)]]) ].

(** The message of the three [except:] blocks. *)
Definition access_error : string := "Error: Unable to access web site".

(** The address asked for a player; [suffix] is empty for the profile and
    ["/stats"] for the statistics. *)
Definition player_page (suffix s : string) : string :=
  "https://api.chess.com/pub/player/" ++ s ++ suffix.

(** What the three loading stages print when they all end well, for a
    roster of [n] members. *)
Definition progress (CLUB_NAME : string) (n : nat) : list string :=
  [ "Getting list of club members from web site...";
    "Club Name:  " ++ CLUB_NAME;
    "Number of Club members:  " ++ pretty n;
    "Getting Players information from web site...";
    "Getting Stats information from web site..." ].

(** [st'] is [st] after the requests [extra], and nothing else. *)
Definition requested (extra : list string) (st st' : state) : Prop :=
  requests st' = (requests st ++ extra)%list /\
  stdout st' = stdout st /\
  report st' = report st /\
  lines st' = lines st /\
  shown st' = shown st.

(** A record with a value under every column of the table. *)
Definition complete (m : member) : Prop :=
  Forall (fun c => is_Some (m !! c)) columns.

(** The error message was not printed. *)
Definition silent (st : state) : Prop := ~ In access_error (stdout st).

(** What holds of the messages when a piece of the script ends: an exit
    with status 1 comes right after the error message, and nothing else
    prints it. *)
Definition voiced {A} (st : state) (r : outcome A) : Prop :=
  match r with
  | Exit c =>
      (c = 1 /\ last (stdout st) = Some access_error) \/
      (c = 0 /\ silent st)
  | _ => silent st
  end.

Section Decoding.
Context (web : nat -> string -> reply).

(** Every request made so far got something other than bytes that are not
    JSON. *)
Definition decoded (st : state) : Prop :=
  forall n url, requests st !! n = Some url -> web n url <> Garbage.

(** No request but the last one made got bytes that are not JSON. *)
Definition only_last_garbled (st : state) : Prop :=
  forall n url, requests st !! n = Some url -> web n url = Garbage ->
                S n = length (requests st).

Definition readable (st : state) : Prop := decoded st /\ quiet st.

(** What holds after a piece of the three loading stages: only a
    [JSONDecodeError] can leave a request whose bytes were not JSON, and
    then it is the last one made. *)
Definition parsing {A} (st : state) (r : outcome A) : Prop :=
  quiet st /\
  match r with
  | Abort JSONDecodeError => only_last_garbled st
  | _ => decoded st
  end.

End Decoding.

(** A run whose roster lists [ann] and [bob], and whose request for the
    statistics of [ann] gets bytes that are not JSON. *)
Definition web_stats_garbled (n : nat) (url : string) : reply :=
  match n with
  | 0%nat => Doc (VDict [("all_time", VList [member_object "ann";
                                            member_object "bob"])])
  | 3%nat => Garbage
  | _ => Doc (VDict [])
  end.

(** A run whose roster lists one member, with a number as username. *)
Definition web_numbered_member (n : nat) (url : string) : reply :=
  match n with
  | 0%nat => Doc (VDict [("all_time", VList [VDict [("username", VInt 7)]])])
  | _ => Doc (VDict [])
  end.

(** A run that gets the roster [roster_unnamed]. *)
Definition web_unnamed (n : nat) (url : string) : reply :=
  match n with
  | 0%nat => Doc (VDict roster_unnamed)
  | _ => Doc (VDict [])
  end.

Section Charted.
Context `{Builtins}.

(** A cell the chart can take: an empty string, or a value [int] accepts. *)
Definition cell_converts (c : option value) : Prop :=
  match c with
  | Some v => py_ne_empty v = false \/ exists n, py_int v = Ok n
  | None => False
  end.

(** The six charted cells of a row are the fourth to the ninth. *)
Definition row_charts (row : list (option value)) : Prop :=
  Forall cell_converts (take 6 (drop 3 row)).

End Charted.

(** A run with one member whose statistics hold a null blitz rating. *)
Definition web_null_rating (n : nat) (url : string) : reply :=
  match n with
  | 0%nat => Doc (VDict [("all_time", VList [member_object "ann"])])
  | 1%nat => Doc (VDict [])
  | _ => Doc (VDict [("chess_blitz",
                      VDict [("last", VDict [("rating", VNone)])])])
  end.

(** ** Definitions for the stored attributes, the buckets and the chart *)

(** What the enrichers store for the attribute [attr], given what the
    document holds at the attribute's path: the value found, as it is,
    except that a [fide] equal to zero gives the empty string; and the
    empty string when nothing is found. *)
Definition stored_value (attr : string) (found : option value) : value :=
  match found with
  | Some v => if String.eqb attr "fide" && py_eq_zero v then EMPTY else v
  | None => EMPTY
  end.

(** A mapping or a string with nothing in it. *)
Definition empty_container (v : value) : bool :=
  match v with
  | VDict [] => true
  | VStr EmptyString => true
  | _ => false
  end.

(** Whether the record [m] has the username [uid]. *)
Definition has_uid (uid : string) (m : member) : bool :=
  match m !! "username" with
  | Some (VStr s) => String.eqb s uid
  | _ => false
  end.

(** The last record of [ms] that has the username [uid]. *)
Fixpoint last_named (uid : string) (ms : list member) : option member :=
  match ms with
  | [] => None
  | m :: ms' =>
      match last_named uid ms' with
      | Some m' => Some m'
      | None => if has_uid uid m then Some m else None
      end
  end.

(** A statistics document whose only entry is the daily rating [n]. *)
Definition daily_document (n : Z) : value :=
  VDict [("chess_daily", VDict [("last", VDict [("rating", VInt n)])])].

(** A run whose roster lists [alice] in two buckets, so that her
    statistics are asked for twice (requests 3 and 4): the first answer
    carries the daily rating 1000, the second 2000. *)
Definition web_rating_moves (n : nat) (url : string) : reply :=
  match n with
  | 0%nat => Doc (VDict [ ("weekly", VList [member_object "alice"]);
                          ("all_time", VList [member_object "alice"]) ])
  | 1%nat | 2%nat => Doc (VDict [])
  | 3%nat => Doc (daily_document 1000)
  | _ => Doc (daily_document 2000)
  end.

(** The record of [alice] with the daily rating [n] and nothing else. *)
Definition alice_rated (n : Z) : member :=
  list_to_map
    [ ("username", VStr "alice"); ("name", EMPTY); ("location", EMPTY);
      ("status", EMPTY); ("fide", EMPTY); ("puzzle_rush", EMPTY);
      ("chess_daily", VInt n); ("chess_rapid", EMPTY);
      ("chess_blitz", EMPTY); ("chess_bullet", EMPTY);
      ("chess960_daily", EMPTY); ("tactics", EMPTY); ("lessons", EMPTY) ].

(** * Theorems *)

(** ** Order of strings and the stable sort *)

Lemma ltb_false_le (x y : string) : String.ltb y x = false -> String.le x y.
Proof.
  unfold String.le, String.leb, String.ltb.
  rewrite (String.compare_antisym x y).
  destruct (String.compare y x); simpl; intros; done.
Qed.

Lemma ltb_true_le (x y : string) : String.ltb y x = true -> String.le y x.
Proof.
  unfold String.le, String.leb, String.ltb.
  destruct (String.compare y x); simpl; intros; done.
Qed.

Lemma insert_by_key_perm x l : Permutation (insert_by_key x l) (x :: l).
Proof.
  induction l as [|y l IH]; simpl; [done|].
  destruct (String.ltb (fst y) (fst x)); [|done].
  rewrite IH. apply perm_swap.
Qed.

Lemma sort_by_key_perm l : Permutation (sort_by_key l) l.
Proof.
  induction l as [|x l IH]; simpl; [done|].
  rewrite insert_by_key_perm. by constructor.
Qed.

Lemma insert_by_key_hd x y l :
  key_le y x -> HdRel key_le y l -> HdRel key_le y (insert_by_key x l).
Proof.
  intros Hyx Hl. destruct l as [|z l]; simpl; [by constructor|].
  inversion Hl; subst.
  destruct (String.ltb (fst z) (fst x)); by constructor.
Qed.

Lemma insert_by_key_sorted x l :
  Sorted key_le l -> Sorted key_le (insert_by_key x l).
Proof.
  induction 1 as [|y l Hs IH Hhd]; simpl; [by repeat constructor|].
  destruct (String.ltb (fst y) (fst x)) eqn:E.
  - constructor; [done|]. apply insert_by_key_hd; [|done].
    by apply ltb_true_le.
  - constructor; [by constructor|]. constructor. by apply ltb_false_le.
Qed.

Lemma sort_by_key_sorted l : Sorted key_le (sort_by_key l).
Proof.
  induction l as [|x l IH]; simpl; [constructor|].
  by apply insert_by_key_sorted.
Qed.

Lemma sorted_keys l : Sorted key_le l -> Sorted String.le (map fst l).
Proof.
  induction 1 as [|x l Hs IH Hhd]; simpl; constructor; [done|].
  destruct Hhd; simpl; by constructor.
Qed.

Lemma sort_by_key_names l : Sorted String.le (map fst (sort_by_key l)).
Proof. apply sorted_keys, sort_by_key_sorted. Qed.

(** ** The roster loader *)

Lemma str_names_cons m ms ids :
  str_names (m :: ms) = Some ids ->
  exists s r, ids = s :: r /\ m !! "username" = Some (VStr s) /\
              str_names ms = Some r.
Proof.
  simpl. destruct (m !! "username") as [[| | | |s| |]|]; try done.
  destruct (str_names ms) as [r|]; [|done].
  intros [= <-]. by exists s, r.
Qed.

Lemma str_names_Forall ms ids :
  str_names ms = Some ids -> Forall has_str_name ms.
Proof.
  revert ids. induction ms as [|m ms IH]; intros ids Hn; [constructor|].
  apply str_names_cons in Hn as (s & r & -> & Hm & Hr).
  constructor; [by exists s | by eapply IH].
Qed.

Lemma str_names_named l : named l -> str_names (map snd l) = Some (map fst l).
Proof.
  induction 1 as [|[s m] l Hm _ IH]; simpl in *; [done|].
  by rewrite Hm, IH.
Qed.

Lemma str_names_perm ms ms' ids :
  Permutation ms ms' -> str_names ms = Some ids ->
  exists ids', str_names ms' = Some ids' /\ Permutation ids ids'.
Proof.
  intros Hp. revert ids.
  induction Hp as [|m ms ms' _ IH|m1 m2 ms|ms1 ms2 ms3 _ IH1 _ IH2];
    intros ids Hn.
  - exists ids. by split.
  - apply str_names_cons in Hn as (s & r & -> & Hm & Hr).
    destruct (IH _ Hr) as (r' & Hr' & Hp').
    exists (s :: r'). simpl. rewrite Hm, Hr'. split; [done|by constructor].
  - apply str_names_cons in Hn as (s2 & r & -> & Hm2 & Hr).
    apply str_names_cons in Hr as (s1 & r' & -> & Hm1 & Hr').
    exists (s1 :: s2 :: r'). simpl. rewrite Hm1, Hm2, Hr'.
    split; [done|apply perm_swap].
  - destruct (IH1 _ Hn) as (ids2 & Hn2 & Hp2).
    destruct (IH2 _ Hn2) as (ids3 & Hn3 & Hp3).
    exists ids3. split; [done|by etrans].
Qed.

Lemma keyed_eq m :
  keyed m = match m !! "username" with
            | Some v => Ok (v, m)
            | None => Raise KeyError
            end.
Proof. unfold keyed, member_get. by destruct (m !! "username"). Qed.

Lemma map_result_keyed ms ks :
  map_result keyed ms = Ok ks ->
  map snd ks = ms /\ Forall (fun p => snd p !! "username" = Some (fst p)) ks.
Proof.
  revert ks. induction ms as [|m ms IH]; simpl; intros ks Hk.
  - injection Hk as <-. by split.
  - rewrite keyed_eq in Hk.
    destruct (m !! "username") as [v|] eqn:Hv; simpl in Hk; [|done].
    destruct (map_result keyed ms) as [ks'|]; simpl in Hk; [|done..].
    injection Hk as <-. destruct (IH _ eq_refl) as [<- HF].
    split; [done|]. by constructor.
Qed.

Lemma str_keys_Some ks l :
  str_keys ks = Some l ->
  map snd l = map snd ks /\
  (Forall (fun p => snd p !! "username" = Some (fst p)) ks -> named l).
Proof.
  revert l. induction ks as [|[v m] ks IH]; simpl; intros l Hl.
  - injection Hl as <-. split; [done|]. constructor.
  - destruct v; try done.
    destruct (str_keys ks) as [r|]; [|done].
    injection Hl as <-. destruct (IH _ eq_refl) as [Hs Hn].
    split; simpl; [by f_equal|].
    intros HF. inversion HF; subst. constructor; [done|by apply Hn].
Qed.

Lemma str_keys_None ks :
  str_keys ks = None ->
  Forall (fun p => snd p !! "username" = Some (fst p)) ks ->
  ~ Forall has_str_name (map snd ks).
Proof.
  induction ks as [|[v m] ks IH]; simpl; intros Hk HF Hall; [done|].
  inversion HF as [|? ? Hm HF']; subst. simpl in Hm.
  inversion Hall as [|? ? [s Hs] Hall']; subst.
  rewrite Hm in Hs. injection Hs as ->.
  destruct (str_keys ks); [done|]. by apply IH.
Qed.

Section Loader.
Context `{Builtins}.

(** The sort keeps every member, and puts [str] usernames in ascending
    order. *)
Lemma sort_members_spec ms ms' :
  sort_members ms = Ok ms' ->
  Permutation ms ms' /\
  forall ids, str_names ms' = Some ids -> Sorted String.le ids.
Proof.
  unfold sort_members. intros Hs.
  destruct (map_result keyed ms) as [ks|] eqn:Hk; simpl in Hs; [|done..].
  apply map_result_keyed in Hk as [<- HF].
  destruct (str_keys ks) as [l|] eqn:Hl.
  - injection Hs as <-. apply str_keys_Some in Hl as [Hsnd Hn].
    specialize (Hn HF). split.
    + rewrite <- Hsnd. apply Permutation_map. symmetry. apply sort_by_key_perm.
    + intros ids Hids.
      assert (named (sort_by_key l)) as Hn'.
      { unfold named. eapply Permutation_Forall; [|exact Hn].
        symmetry. apply sort_by_key_perm. }
      rewrite (str_names_named _ Hn') in Hids. injection Hids as <-.
      apply sort_by_key_names.
  - assert (Permutation (map snd ks) ms') as Hp.
    { destruct ks as [|k1 [|k2 ks']];
        [by injection Hs as <-|by injection Hs as <-|].
      by apply sort_other_perm. }
    split; [done|].
    intros ids Hids. exfalso.
    apply (str_keys_None _ Hl HF).
    eapply Permutation_Forall; [symmetry; exact Hp|].
    by eapply str_names_Forall.
Qed.

(** On members that all have a [str] username the sort is the stable
    insertion sort, whatever the other builtins do. *)
Lemma keyed_str_names ms ids :
  str_names ms = Some ids ->
  exists ks, map_result keyed ms = Ok ks /\ str_keys ks = Some (combine ids ms).
Proof.
  revert ids. induction ms as [|m ms IH]; intros ids Hn.
  - injection Hn as <-. by exists [].
  - apply str_names_cons in Hn as (s & r & -> & Hm & Hr).
    destruct (IH _ Hr) as (ks & Hk & Hl).
    exists ((VStr s, m) :: ks). simpl.
    rewrite keyed_eq, Hm. simpl. rewrite Hk. simpl.
    by rewrite Hl.
Qed.

Lemma sort_members_str ms ids :
  str_names ms = Some ids ->
  sort_members ms = Ok (map snd (sort_by_key (combine ids ms))).
Proof.
  intros Hn. destruct (keyed_str_names _ _ Hn) as (ks & Hk & Hl).
  unfold sort_members. rewrite Hk. simpl. by rewrite Hl.
Qed.

End Loader.

Lemma bucket_names_collect l names :
  bucket_names l = Some names ->
  map_result new_member l = Ok (map id_record names).
Proof.
  revert names. induction l as [|e l IH]; simpl; intros names Hn.
  - by injection Hn as <-.
  - destruct e as [| | | | | |o]; simpl in Hn; try done.
    unfold new_member at 1. simpl.
    destruct (dict_get "username" o) as [[| | | |s| |]|]; try done.
    destruct (bucket_names l) as [r|]; [|done].
    injection Hn as <-. simpl. by rewrite (IH _ eq_refl).
Qed.

Lemma roster_names_buckets d names :
  roster_names d = Some names ->
  exists per_bucket,
    map_result (fun kv => bucket_members (snd kv)) d = Ok per_bucket /\
    concat per_bucket = map id_record names.
Proof.
  revert names. induction d as [|[k b] d IH]; simpl; intros names Hn.
  - injection Hn as <-. by exists [].
  - destruct b as [| | | | |l|]; try done.
    destruct (bucket_names l) as [a|] eqn:Ha; [|done].
    destruct (roster_names d) as [r|]; [|done].
    injection Hn as <-. destruct (IH _ eq_refl) as (pb & Hpb & Hc).
    exists (map id_record a :: pb). unfold bucket_members at 1. simpl.
    rewrite (bucket_names_collect _ _ Ha), Hpb. simpl.
    split; [done|]. by rewrite Hc, map_app.
Qed.

Lemma roster_names_collect d names :
  roster_names d = Some names ->
  collect_members (VDict d) = Ok (map id_record names).
Proof.
  intros Hn. destruct (roster_names_buckets _ _ Hn) as (pb & Hpb & Hc).
  simpl. rewrite Hpb. simpl. by rewrite Hc.
Qed.

Lemma str_names_id_records names :
  str_names (map id_record names) = Some names.
Proof.
  induction names as [|s names IH]; simpl; [done|].
  unfold id_record at 1. rewrite lookup_insert_eq. by rewrite IH.
Qed.

Lemma id_records_sorted names :
  map snd (sort_by_key (combine names (map id_record names))) =
  map id_record (map fst (sort_by_key (combine names (map id_record names)))).
Proof.
  assert (Forall (fun p : string * member => snd p = id_record (fst p))
            (sort_by_key (combine names (map id_record names)))) as HF.
  { eapply Permutation_Forall; [symmetry; apply sort_by_key_perm|].
    induction names; simpl; by constructor. }
  induction HF as [|p l Hp _ IH]; simpl; [done|]. by rewrite Hp, IH.
Qed.

Lemma combine_id_records_fst names :
  map fst (combine names (map id_record names)) = names.
Proof. induction names; simpl; by f_equal. Qed.

Lemma remove_dups_NoDup_id (l : list string) : NoDup l -> remove_dups l = l.
Proof.
  induction 1 as [|x l Hx _ IH]; simpl; [done|].
  rewrite IH. destruct (decide_rel elem_of x l) as [Hin|]; [|done].
  first [ by destruct Hx | by apply list_elem_of_In in Hin ].
Qed.

Section Directory.
Context `{Builtins}.

(** C1, as amended: on a roster whose member objects all carry a [str]
    username, the loader returns one record per member object listed, in
    ascending order of username; every listing is kept, so a username
    listed in two buckets gets two records.  When no username is listed
    twice this is the identity list of the specification. *)
Theorem loader_keeps_every_listing (d : list (string * value)) names :
  roster_names d = Some names ->
  exists ids,
    load_members (VDict d) = Ok (map id_record ids) /\
    Sorted String.le ids /\
    Permutation ids names /\
    (NoDup names -> ids = spec_identities names).
Proof.
  intros Hn.
  exists (map fst (sort_by_key (combine names (map id_record names)))).
  assert (Permutation
            (map fst (sort_by_key (combine names (map id_record names))))
            names) as Hperm.
  { etrans; [apply Permutation_map, sort_by_key_perm|].
    by rewrite combine_id_records_fst. }
  split; [|split; [apply sort_by_key_names|split; [done|]]].
  - unfold load_members. rewrite (roster_names_collect _ _ Hn). simpl.
    rewrite (sort_members_str _ _ (str_names_id_records names)).
    by rewrite id_records_sorted.
  - intros Hnd. unfold spec_identities.
    rewrite (remove_dups_NoDup_id _ Hnd).
    apply (Sorted_unique String.le).
    + apply sort_by_key_names.
    + apply Sorted_merge_sort; apply _.
    + rewrite merge_sort_Permutation. exact Hperm.
Qed.

End Directory.

(** C1 fails as stated: in the scenario of the specification [alice] is
    listed twice and the loader returns her twice, where the specification
    asks for one identity. *)
Lemma roster_twice_not_collapsed :
  roster_names roster_twice = Some ["alice"; "Bob"; "alice"] /\
  exists ms,
    load_members (H := example_builtins) (VDict roster_twice) = Ok ms /\
    str_names ms = Some ["Bob"; "alice"; "alice"] /\
    spec_identities ["alice"; "Bob"; "alice"] = ["Bob"; "alice"] /\
    ms <> map id_record (spec_identities ["alice"; "Bob"; "alice"]).
Proof.
  split; [reflexivity|].
  exists (map id_record ["Bob"; "alice"; "alice"]).
  split; [by vm_compute|]. split; [by vm_compute|]. split; [by vm_compute|].
  intros Heq. apply (f_equal length) in Heq. vm_compute in Heq. discriminate.
Qed.

(** A roster on which the amended statement applies. *)
Lemma loader_keeps_every_listing_witness :
  roster_names roster_twice = Some ["alice"; "Bob"; "alice"] /\
  exists ids,
    load_members (H := example_builtins) (VDict roster_twice) = Ok (map id_record ids) /\
    Sorted String.le ids /\
    Permutation ids ["alice"; "Bob"; "alice"] /\
    (NoDup ["alice"; "Bob"; "alice"] ->
     ids = spec_identities ["alice"; "Bob"; "alice"]).
Proof.
  split; [reflexivity|].
  apply (loader_keeps_every_listing (H := example_builtins) roster_twice). reflexivity.
Defined.

(** ** The statistics fields, one by one *)

Lemma stats_fields_store m player_data :
  stats_fields m player_data = store_all (stats_results player_data) m.
Proof. reflexivity. Qed.

Lemma get_path_top d a b c :
  except_KeyError (get_path (VDict d) a b c) = nested_of b c (dict_get a d).
Proof.
  unfold get_path, nested_of. simpl. by destruct (dict_get a d).
Qed.

Lemma fide_field_top d : fide_field (VDict d) = fide_of (dict_get "fide" d).
Proof.
  unfold fide_field, field_or_empty, fide_of. simpl.
  by destruct (dict_get "fide" d).
Qed.

Lemma stats_results_readers d :
  stats_results (VDict d) =
  map (fun kf => (fst kf, snd kf (dict_get (fst kf) d))) stats_readers.
Proof.
  unfold stats_results, stats_readers, puzzle_rush_field, rating_field.
  simpl. by rewrite fide_field_top, !get_path_top.
Qed.

Lemma store_all_other l m m' k :
  store_all l m = Ok m' -> ~ In k (map fst l) -> m' !! k = m !! k.
Proof.
  revert m. induction l as [|[k' r] l IH]; simpl; intros m Hs Hk.
  - by injection Hs as <-.
  - destruct r as [v|]; simpl in Hs; [|done..].
    rewrite (IH _ Hs) by tauto. apply lookup_insert_ne. tauto.
Qed.

Lemma store_all_stored l m m' k r :
  store_all l m = Ok m' -> NoDup (map fst l) -> In (k, r) l ->
  exists v, r = Ok v /\ m' !! k = Some v.
Proof.
  revert m. induction l as [|[k' r'] l IH]; simpl; intros m Hs Hnd Hin; [done|].
  destruct r' as [v|]; simpl in Hs; [|done..].
  apply NoDup_cons in Hnd as [Hk' Hnd].
  destruct Hin as [[= <- <-]|Hin].
  - exists v. split; [done|].
    rewrite (store_all_other _ _ _ k' Hs).
    + apply lookup_insert_eq.
    + by rewrite <- list_elem_of_In.
  - by eapply IH.
Qed.


Lemma stats_keys_NoDup pd : NoDup (map fst (stats_results pd)).
Proof.
  simpl. repeat (constructor; [rewrite list_elem_of_In; simpl; intuition discriminate|]).
  constructor.
Qed.



Lemma keys_functional {A B} (l : list (A * B)) k x y :
  NoDup (map fst l) -> In (k, x) l -> In (k, y) l -> x = y.
Proof.
  induction l as [|[k' z] l IH]; simpl; intros Hnd Hx Hy; [done|].
  apply NoDup_cons in Hnd as [Hk' Hnd].
  rewrite list_elem_of_In in Hk'.
  destruct Hx as [Hx|Hx], Hy as [Hy|Hy].
  - congruence.
  - injection Hx as -> _. destruct Hk'. by apply (in_map fst _ (k, y)).
  - injection Hy as -> _. destruct Hk'. by apply (in_map fst _ (k, x)).
  - by apply IH.
Qed.

Lemma stats_readers_NoDup : NoDup (map fst stats_readers).
Proof.
  simpl. repeat (constructor; [rewrite list_elem_of_In; simpl; intuition discriminate|]).
  constructor.
Qed.







Lemma rating_reader g sel :
  In (g, sel) rating_lists -> In (g, nested_of sel "rating") stats_readers.
Proof.
  intros Hin. unfold stats_readers. right. right.
  by apply (in_map (fun ts => (fst ts, nested_of (snd ts) "rating")) _ (g, sel)).
Qed.

Lemma rating_unread_sub_key g sel d d' :
  In (g, sel) rating_lists ->
  differ_only_under g (other_selector sel) d d' ->
  rating_field (VDict d) g sel = rating_field (VDict d') g sel /\
  forall m, stats_fields m (VDict d) = stats_fields m (VDict d').
Proof.
  intros Hin (Htop & sub & sub' & Hg & Hg' & Hsub).
  assert (sel <> other_selector sel) as Hsel.
  { simpl in Hin. intuition (simplify_eq; done). }
  assert (nested_of sel "rating" (dict_get g d) =
          nested_of sel "rating" (dict_get g d')) as Hfield.
  { rewrite Hg, Hg'. unfold nested_of. simpl. by rewrite (Hsub _ Hsel). }
  split; [unfold rating_field; by rewrite !get_path_top|].
  intros m. rewrite !stats_fields_store, !stats_results_readers.
  f_equal. apply map_ext_in. intros [k f] Hk. simpl. f_equal.
  destruct (decide (k = g)) as [->|Hkg]; [|by rewrite (Htop _ Hkg)].
  by rewrite (keys_functional _ _ _ _ stats_readers_NoDup Hk
                (rating_reader _ _ Hin)).
Qed.

(** C5: the five ratings read under ["last"] do not depend on what a
    document holds under ["highest"], and the two read under ["highest"]
    do not depend on what it holds under ["last"]: neither the field nor
    anything else the enricher stores changes. *)
Theorem rating_reads_its_selector_only (g : string) (d d' : list (string * value)) :
  (In g ["chess_daily"; "chess_rapid"; "chess_blitz"; "chess_bullet";
         "chess960_daily"] ->
   differ_only_under g "highest" d d' ->
   In (g, "last") rating_lists /\
   rating_field (VDict d) g "last" = rating_field (VDict d') g "last" /\
   forall m, stats_fields m (VDict d) = stats_fields m (VDict d')) /\
  (In g ["tactics"; "lessons"] ->
   differ_only_under g "last" d d' ->
   In (g, "highest") rating_lists /\
   rating_field (VDict d) g "highest" = rating_field (VDict d') g "highest" /\
   forall m, stats_fields m (VDict d) = stats_fields m (VDict d')).
Proof.
  split; intros Hg Hdiff.
  - assert (In (g, "last") rating_lists) as Hin.
    { simpl in *. intuition (subst; tauto). }
    split; [done|]. by apply rating_unread_sub_key.
  - assert (In (g, "highest") rating_lists) as Hin.
    { simpl in *. intuition (subst; tauto). }
    split; [done|]. by apply rating_unread_sub_key.
Qed.

(** ** Where a stored value comes from *)

Lemma field_or_empty_dict d k :
  field_or_empty k (VDict d) = Ok (top_or_empty d k).
Proof.
  unfold field_or_empty, top_or_empty. simpl. by destruct (dict_get k d).
Qed.

Lemma field_or_empty_exact k pd v :
  field_or_empty k pd = Ok v -> v = default EMPTY (value_at pd [k]).
Proof.
  unfold field_or_empty. destruct pd as [| | | |s|l|d]; simpl; try done.
  - destruct (is_some (index 0 k s)); [done|]. by intros [= <-].
  - destruct (existsb (is_str k) l); [done|]. by intros [= <-].
  - destruct (dict_get k d) as [x|]; simpl; by intros [= <-].
Qed.

Lemma fide_field_exact sd v :
  fide_field sd = Ok v -> v = stored_value "fide" (value_at sd ["fide"]).
Proof.
  unfold fide_field. intros Hf.
  destruct (field_or_empty "fide" sd) as [x|] eqn:Hx; simpl in Hf; [|done..].
  injection Hf as <-. apply field_or_empty_exact in Hx. subst x.
  destruct (value_at sd ["fide"]); reflexivity.
Qed.

Lemma nested_exact sd a b c v :
  except_KeyError (get_path sd a b c) = Ok v ->
  v = default EMPTY (value_at sd [a; b; c]).
Proof.
  unfold get_path. destruct sd as [| | | | | |d]; simpl; try done.
  destruct (dict_get a d) as [x|]; simpl; [|by intros [= <-]].
  destruct x as [| | | | | |dx]; simpl; try done.
  destruct (dict_get b dx) as [y|]; simpl; [|by intros [= <-]].
  destruct y as [| | | | | |dy]; simpl; try done.
  destruct (dict_get c dy) as [z|]; simpl; by intros [= <-].
Qed.

(** The nested reads end with a value exactly when every present segment
    holds a mapping; otherwise they end with [TypeError], which the
    [except KeyError] clause lets through. *)
Lemma nested_total_iff pd a b c :
  (exists v, except_KeyError (get_path pd a b c) = Ok v) <->
  segments_are_mappings pd a b.
Proof.
  unfold get_path, segments_are_mappings.
  destruct pd as [| | | | | |d]; simpl; try (split; [intros [? ?]|]; done).
  destruct (dict_get a d) as [x|]; simpl; [|split; [done|by eexists]].
  destruct x as [| | | | | |dx]; simpl; try (split; [intros [? ?]|]; done).
  destruct (dict_get b dx) as [y|]; simpl; [|split; [done|by eexists]].
  destruct y as [| | | | | |dy]; simpl; try (split; [intros [? ?]|]; done).
  destruct (dict_get c dy); simpl; split; try done; by eexists.
Qed.

Lemma nested_not_mapping pd a b c :
  ~ segments_are_mappings pd a b ->
  except_KeyError (get_path pd a b c) = Raise TypeError.
Proof.
  unfold get_path, segments_are_mappings.
  destruct pd as [| | | | | |d]; simpl; try done.
  destruct (dict_get a d) as [x|]; simpl; [|tauto].
  destruct x as [| | | | | |dx]; simpl; try done.
  destruct (dict_get b dx) as [y|]; simpl; [|tauto].
  destruct y as [| | | | | |dy]; simpl; try done; tauto.
Qed.

(** C8, on one document: for a profile document that is a mapping, each of
    [name], [location] and [status] gets the document's value under that
    key, or the empty string when the key is absent; no exception is
    raised, whichever keys are absent. *)
Lemma profile_fields_dict m d :
  profile_fields m (VDict d) = Ok (profile_record d m).
Proof.
  unfold profile_fields. by rewrite !field_or_empty_dict.
Qed.

Lemma profile_fields_exact m pd m1 k :
  profile_fields m pd = Ok m1 ->
  In k ["name"; "location"; "status"] ->
  m1 !! k = Some (stored_value k (value_at pd [k])).
Proof.
  unfold profile_fields. intros Hp Hk.
  destruct (field_or_empty "name" pd) as [v1|] eqn:H1; simpl in Hp; [|done..].
  destruct (field_or_empty "location" pd) as [v2|] eqn:H2;
    simpl in Hp; [|done..].
  destruct (field_or_empty "status" pd) as [v3|] eqn:H3;
    simpl in Hp; [|done..].
  injection Hp as <-.
  apply field_or_empty_exact in H1, H2, H3.
  simpl in Hk. destruct Hk as [<-|[<-|[<-|[]]]].
  - rewrite lookup_insert_ne, lookup_insert_ne, lookup_insert_eq by done.
    f_equal. exact H1.
  - rewrite lookup_insert_ne, lookup_insert_eq by done. f_equal. exact H2.
  - rewrite lookup_insert_eq. f_equal. exact H3.
Qed.

Lemma stats_fields_exact m sd m2 k path :
  stats_fields m sd = Ok m2 ->
  In (k, (false, path)) attribute_paths ->
  m2 !! k = Some (stored_value k (value_at sd path)).
Proof.
  intros Hs Hk. rewrite stats_fields_store in Hs.
  assert (exists r, In (k, r) (stats_results sd) /\
            forall v, r = Ok v -> v = stored_value k (value_at sd path))
    as (r & Hr & Hsrc).
  { unfold attribute_paths, rating_lists in Hk. simpl in Hk.
    unfold stats_results, puzzle_rush_field, rating_field, rating_lists.
    simpl.
    repeat (destruct Hk as [Hk|Hk];
            [ first
                [ discriminate Hk
                | injection Hk as <- <-; eexists; split;
                  [ repeat (first [ left; reflexivity | right ])
                  | first [ exact (fide_field_exact sd)
                          | exact (nested_exact sd _ _ _) ] ] ]
            | ]).
    done. }
  destruct (store_all_stored _ _ _ k r Hs (stats_keys_NoDup sd) Hr)
    as (v & -> & Hv).
  rewrite Hv. f_equal. by apply Hsrc.
Qed.

Lemma stored_value_null attr found :
  stored_value attr found = VNone <-> found = Some VNone.
Proof.
  unfold stored_value. destruct found as [v|]; [|done].
  destruct (String.eqb attr "fide"); simpl.
  - destruct v as [| [|] | n | f | | | ]; simpl; try done.
    + destruct n; done.
    + destruct f; done.
  - split; [by intros ->|by intros [= ->]].
Qed.

(** C9, as amended: after both enrichments each of the twelve optional
    attributes is defined and holds exactly this: the value the document
    carries at the attribute's path, stored as it is, when there is one
    (and, for [fide], when it is not equal to zero); the empty string when
    the path is absent, or when [fide] is equal to zero.  So an explicit
    null at a present path is stored as null, and an attribute is null
    only in that case. *)
Theorem attributes_hold_source_value_or_empty
  (m m1 m2 : member) (profile stats : value) :
  profile_fields m profile = Ok m1 ->
  stats_fields m1 stats = Ok m2 ->
  forall attr from_profile path,
    In (attr, (from_profile, path)) attribute_paths ->
    forall found,
      found = value_at (if from_profile then profile else stats) path ->
      m2 !! attr = Some (stored_value attr found) /\
      (forall v, found = Some v ->
                 attr <> "fide" \/ py_eq_zero v = false ->
                 m2 !! attr = Some v) /\
      (forall v, found = Some v -> attr = "fide" -> py_eq_zero v = true ->
                 m2 !! attr = Some EMPTY) /\
      (found = None -> m2 !! attr = Some EMPTY) /\
      (m2 !! attr = Some VNone <-> found = Some VNone).
Proof.
  intros Hp Hs attr from_profile path Hin found Hfound.
  assert (m2 !! attr = Some (stored_value attr found)) as Hstored.
  { subst found. destruct from_profile.
    - assert (In attr ["name"; "location"; "status"] /\ path = [attr])
        as [Hattr ->].
      { unfold attribute_paths, rating_lists in Hin. simpl in Hin |- *.
        repeat (destruct Hin as [Hin|Hin];
                [first [discriminate Hin | injection Hin as <- <-; tauto]|]).
        done. }
      rewrite <- (profile_fields_exact _ _ _ _ Hp Hattr).
      rewrite stats_fields_store in Hs.
      apply (store_all_other _ _ _ attr Hs).
      simpl in Hattr |- *. intuition (subst; discriminate).
    - by eapply stats_fields_exact. }
  split; [exact Hstored|]. rewrite Hstored. repeat split.
  - intros v -> Hv. simpl. f_equal.
    destruct Hv as [Hne| ->]; [|by rewrite andb_false_r].
    apply String.eqb_neq in Hne. by rewrite Hne.
  - intros v -> -> Hz. simpl. by rewrite Hz.
  - by intros ->.
  - intros [= Hn]. by apply stored_value_null in Hn.
  - intros Hn. f_equal. by apply stored_value_null.
Qed.

(** C9 fails as stated: a profile document with an explicit null under
    [name] leaves null in the record's [name], neither a proper value nor
    the empty string. *)
Lemma null_name_is_stored :
  exists m1 m2,
    profile_fields (id_record "alice") (VDict [("name", VNone)]) = Ok m1 /\
    stats_fields m1 (VDict []) = Ok m2 /\
    m2 !! "name" = Some VNone /\
    m2 !! "name" <> Some EMPTY.
Proof.
  eexists _, _. split; [reflexivity|]. split; [reflexivity|].
  split; [by vm_compute|]. by vm_compute.
Qed.

Lemma attributes_hold_source_value_or_empty_witness :
  exists m1 m2,
    profile_fields (id_record "alice") (VDict [("name", VNone)]) = Ok m1 /\
    stats_fields m1 (VDict [("fide", VInt 0)]) = Ok m2 /\
    m2 !! "name" = Some VNone /\
    m2 !! "fide" = Some EMPTY.
Proof.
  eexists _, _. split; [reflexivity|]. split; [reflexivity|].
  assert (In ("name", (true, ["name"])) attribute_paths) as Hname
    by (simpl; tauto).
  assert (In ("fide", (false, ["fide"])) attribute_paths) as Hfide
    by (simpl; tauto).
  split.
  - destruct (attributes_hold_source_value_or_empty
                (id_record "alice") _ _
                (VDict [("name", VNone)]) (VDict [("fide", VInt 0)])
                eq_refl eq_refl "name" true ["name"] Hname _ eq_refl)
      as (_ & _ & _ & _ & Hnull).
    apply Hnull. reflexivity.
  - destruct (attributes_hold_source_value_or_empty
                (id_record "alice") _ _
                (VDict [("name", VNone)]) (VDict [("fide", VInt 0)])
                eq_refl eq_refl "fide" false ["fide"] Hfide _ eq_refl)
      as (_ & _ & Hzero & _).
    apply (Hzero (VInt 0)); reflexivity.
Defined.

(** ** The chart vectors *)

Section Chart.
Context `{Builtins}.

Lemma chart_value_cell m type c :
  m !! type = Some (cell_value c) ->
  chart_value m type = Ok (default 800 c).
Proof.
  unfold chart_value, member_get. intros ->. by destruct c.
Qed.

(** For a record whose six charted ratings are integers or the empty
    string, the vector is the six values in the fixed order of
    [rating_types], with 800 in place of every empty string and the
    integer itself otherwise. *)
Lemma rating_vector_cells (m : member) (cells : list (option Z)) :
  map (fun type => m !! type) rating_types =
    map (fun c => Some (cell_value c)) cells ->
  rating_types = [ "chess_daily"; "chess_rapid"; "chess_blitz";
                   "chess_bullet"; "chess960_daily"; "tactics" ] /\
  length cells = 6%nat /\
  rating_vector m = Ok (map (default 800) cells).
Proof.
  intros Hm. split; [done|]. split.
  { apply (f_equal length) in Hm. by rewrite !length_map in Hm. }
  unfold rating_vector.
  revert cells Hm. generalize rating_types as types.
  induction types as [|t types IH]; intros [|c cells] Hm; simpl in *;
    try done.
  injection Hm as Ht Hm.
  by rewrite (chart_value_cell _ _ _ Ht), (IH _ Hm).
Qed.

End Chart.

(** ** Reasoning about the run *)

Lemma triple_bind {A B} (P : state -> Prop) (p : prog A)
  (Q : state -> outcome A -> Prop) (k : A -> prog B)
  (R : state -> outcome B -> Prop) :
  triple P p Q ->
  (forall a, triple (fun st => Q st (Done a)) (k a) R) ->
  (forall st e, Q st (Abort e) -> R st (Abort e)) ->
  (forall st c, Q st (Exit c) -> R st (Exit c)) ->
  triple P (pbind p k) R.
Proof.
  intros Hp Hk He Hc st HP. specialize (Hp st HP). unfold pbind.
  destruct (p st) as [st' [a|e|c]]; simpl in *.
  - by apply Hk.
  - by apply He.
  - by apply Hc.
Qed.

Lemma triple_weaken {A} (P P' : state -> Prop) (p : prog A)
  (Q Q' : state -> outcome A -> Prop) :
  triple P p Q -> (forall st, P' st -> P st) ->
  (forall st r, Q st r -> Q' st r) -> triple P' p Q'.
Proof. intros Hp HP HQ st Hst. apply HQ, Hp, HP, Hst. Qed.

Lemma keeps_bind {A B X} (f : state -> X) (p : prog A) (k : A -> prog B) :
  keeps f p -> (forall a, keeps f (k a)) -> keeps f (pbind p k).
Proof.
  intros Hp Hk st. unfold pbind. specialize (Hp st).
  destruct (p st) as [st' [a|e|c]]; simpl in *; [|done..].
  by rewrite Hk.
Qed.

Lemma keeps_lift {A X} (f : state -> X) (r : result A) : keeps f (lift r).
Proof. intros st. by destruct r. Qed.

Section Run.
Context `{Builtins} (CLUB_NAME : string) (PLOT : bool)
  (web : nat -> string -> reply).

Lemma answered_only_last st : (answered web) st -> (only_last_may_fail web) st.
Proof. intros Ha n url Hn Hu. by destruct (Ha n url Hn). Qed.

Lemma loads_print s : triple (clean web) (print s) (@loading web unit).
Proof. by intros st [Ha Hq]. Qed.

Lemma loads_lift {A} (r : result A) : triple (clean web) (lift r) (@loading web A).
Proof. intros st Hc. by destruct r. Qed.

Lemma loads_bind {A B} (p : prog A) (k : A -> prog B) :
  triple (clean web) p (@loading web A) ->
  (forall a, triple (clean web) (k a) (@loading web B)) ->
  triple (clean web) (pbind p k) (@loading web B).
Proof.
  intros Hp Hk. eapply triple_bind; [exact Hp| | |]; simpl.
  - intros a. eapply triple_weaken; [apply Hk| |]; done.
  - done.
  - done.
Qed.

Lemma loads_fetch url : triple (clean web) (fetch web url) (@loading web (option value)).
Proof.
  intros st [Ha Hq]. unfold fetch.
  destruct url as [u|e]; [|split; [done|split; [done|by apply answered_only_last]]].
  assert (forall r, r <> Unreachable ->
            web (length (requests st)) u = r ->
            (answered web) (log_request u st)) as Hans.
  { intros r Hr Hw n url Hn. simpl in Hn.
    apply lookup_app_Some in Hn as [Hn|[Hge Hn]]; [by apply Ha|].
    apply list_lookup_singleton_Some in Hn as [Hn <-].
    replace n with (length (requests st)) by lia. by rewrite Hw. }
  destruct (web (length (requests st)) u) eqn:Hw; simpl.
  - split; [done|]. split; [done|].
    intros n url Hn Hu. simpl in *. rewrite length_app. simpl.
    apply lookup_app_Some in Hn as [Hn|[Hge Hn]]; [by destruct (Ha n url Hn)|].
    apply list_lookup_singleton_Some in Hn as [Hn <-]. lia.
  - split; [by apply (Hans Garbage)|done].
  - split; [by apply (Hans (Doc v))|done].
Qed.

Lemma loads_for_each f ms :
  (forall m, triple (clean web) (f m) (@loading web member)) ->
  triple (clean web) (for_each f ms) (@loading web (list member)).
Proof.
  intros Hf. induction ms as [|m ms IH]; simpl; [apply loads_lift|].
  apply loads_bind; [apply Hf|]. intros m'.
  apply loads_bind; [apply IH|]. intros r. apply loads_lift.
Qed.

Lemma loads_profile_member m :
  triple (clean web) (profile_member web m) (@loading web member).
Proof.
  apply loads_bind; [apply loads_fetch|]. intros source.
  apply loads_bind; [apply loads_lift|]. intros pd. apply loads_lift.
Qed.

Lemma loads_stats_member m :
  triple (clean web) (stats_member web m) (@loading web member).
Proof.
  apply loads_bind; [apply loads_fetch|]. intros source.
  apply loads_bind; [apply loads_lift|]. intros pd. apply loads_lift.
Qed.

Lemma loads_roster_stage :
  triple (clean web) (roster_stage CLUB_NAME web) (@loading web (list member)).
Proof.
  apply loads_bind; [apply loads_print|]. intros _.
  apply loads_bind; [apply loads_fetch|]. intros source.
  apply loads_bind; [apply loads_lift|]. intros cm.
  apply loads_bind; [apply loads_lift|]. intros ms.
  apply loads_bind; [apply loads_print|]. intros _.
  apply loads_bind; [apply loads_print|]. intros _. apply loads_lift.
Qed.

Lemma loads_profile_stage ms :
  triple (clean web) (profile_stage web ms) (@loading web (list member)).
Proof.
  apply loads_bind; [apply loads_print|]. intros _.
  apply loads_for_each, loads_profile_member.
Qed.

Lemma loads_stats_stage ms :
  triple (clean web) (stats_stage web ms) (@loading web (list member)).
Proof.
  apply loads_bind; [apply loads_print|]. intros _.
  apply loads_for_each, loads_stats_member.
Qed.

(** After the loading stages no request is made. *)
Lemma keeps_requests_plot_members ms ratings :
  keeps requests (plot_members ms ratings).
Proof.
  induction ms as [|m ms IH]; simpl; [apply keeps_lift|].
  apply keeps_bind; [apply keeps_lift|]. intros uid.
  apply keeps_bind; [apply keeps_lift|]. intros ys.
  apply keeps_bind; [done|]. intros _. apply IH.
Qed.

Lemma keeps_requests_output_stage ms :
  keeps requests (output_stage PLOT ms).
Proof.
  apply keeps_bind; [done|]. intros _.
  apply keeps_bind; [done|]. intros _.
  destruct PLOT; simpl; [|done].
  apply keeps_bind; [done|]. intros _.
  apply keeps_bind; [apply keeps_lift|]. intros ratings.
  apply keeps_bind; [apply keeps_requests_plot_members|]. done.
Qed.

Lemma script_stages :
  script CLUB_NAME PLOT web =
  (let* members := roster_stage CLUB_NAME web in
   let* members := profile_stage web members in
   let* members := stats_stage web members in
   output_stage PLOT members).
Proof. reflexivity. Qed.

Lemma script_ending : triple (clean web) (script CLUB_NAME PLOT web) (ending web).
Proof.
  rewrite script_stages.
  eapply triple_bind; [apply loads_roster_stage| | |]; simpl.
  2: { intros st e [Ha _]. by left. }
  2: { intros st c (-> & Hq & Hl). by right. }
  intros ms1. eapply triple_bind; [apply loads_profile_stage| | |]; simpl.
  2: { intros st e [Ha _]. by left. }
  2: { intros st c (-> & Hq & Hl). by right. }
  intros ms2. eapply triple_bind; [apply loads_stats_stage| | |]; simpl.
  2: { intros st e [Ha _]. by left. }
  2: { intros st c (-> & Hq & Hl). by right. }
  intros ms3 st [Ha _]. left.
  intros n url. rewrite keeps_requests_output_stage. apply Ha.
Qed.

(** C7: when a request of the run gets no answer, the run ends there with
    exit status 1: that request is the last one made (nothing is asked
    again), and no table is written and nothing is drawn. *)
Theorem unanswered_request_ends_the_run (n : nat) (url : string) :
  requests (fst (run CLUB_NAME PLOT web)) !! n = Some url ->
  web n url = Unreachable ->
  snd (run CLUB_NAME PLOT web) = Exit 1 /\
  exit_status (snd (run CLUB_NAME PLOT web)) <> 0 /\
  S n = length (requests (fst (run CLUB_NAME PLOT web))) /\
  report (fst (run CLUB_NAME PLOT web)) = None /\
  lines (fst (run CLUB_NAME PLOT web)) = [] /\
  shown (fst (run CLUB_NAME PLOT web)) = false.
Proof.
  intros Hn Hu. unfold run in *.
  assert ((clean web) start) as Hstart by (split; [intros ? ? ?|]; done).
  destruct (script_ending start Hstart) as [Ha|(Hr & (Hq1 & Hq2 & Hq3) & Hl)].
  - by destruct (Ha n url Hn).
  - rewrite Hr. repeat split; try done. by apply (Hl n url).
Qed.

End Run.

(** ** The order of the records through the run *)

Lemma pbind_done {A B} (p : prog A) (k : A -> prog B) st st1 a :
  p st = (st1, Done a) -> pbind p k st = k a st1.
Proof. intros Hp. unfold pbind. by rewrite Hp. Qed.

Lemma profile_fields_username m pd m' :
  profile_fields m pd = Ok m' -> username m' = username m.
Proof.
  unfold profile_fields, username. intros Hp.
  destruct (field_or_empty "name" pd); simpl in Hp; [|done].
  destruct (field_or_empty "location" pd); simpl in Hp; [|done].
  destruct (field_or_empty "status" pd); simpl in Hp; [|done].
  injection Hp as <-. by rewrite !lookup_insert_ne.
Qed.

Lemma stats_fields_username m pd m' :
  stats_fields m pd = Ok m' -> username m' = username m.
Proof.
  rewrite stats_fields_store. intros Hs. unfold username.
  apply (store_all_other _ _ _ _ Hs). simpl. intuition discriminate.
Qed.

Lemma player_url_str m suffix u :
  player_url m suffix = Ok u ->
  exists s, m !! "username" = Some (VStr s) /\
            u = "https://api.chess.com/pub/player/" ++ s ++ suffix.
Proof.
  unfold player_url, member_get.
  destruct (m !! "username") as [[| | | |s| |]|]; simpl; try done.
  intros [= <-]. by exists s.
Qed.

Section Order.
Context `{Builtins} (CLUB_NAME : string) (PLOT : bool)
  (web : nat -> string -> reply).

Lemma fetch_done url st st' source :
  fetch web url st = (st', Done source) ->
  exists u, url = Ok u /\ st' = log_request u st /\
    match source with
    | Some v => web (length (requests st)) u = Doc v
    | None => web (length (requests st)) u = Garbage
    end.
Proof.
  unfold fetch. destruct url as [u|e]; [|done].
  destruct (web (length (requests st)) u) eqn:Hw; simpl; [done| |];
    intros [= <- <-]; by exists u.
Qed.

(** A member step that went well read a document for the member's
    username and stored its fields. *)
Lemma member_step_done suffix (fields : member -> value -> result member)
  m st st' m' :
  (let* source := fetch web (player_url m suffix) in
   let* player_data := lift (json_loads source) in
   lift (fields m player_data)) st = (st', Done m') ->
  exists s pd,
    m !! "username" = Some (VStr s) /\
    web (length (requests st))
        ("https://api.chess.com/pub/player/" ++ s ++ suffix) = Doc pd /\
    fields m pd = Ok m' /\
    st' = log_request ("https://api.chess.com/pub/player/" ++ s ++ suffix) st.
Proof.
  intros Hm. unfold pbind at 1 in Hm.
  destruct (fetch web (player_url m suffix) st) as [st1 [source|e|c]] eqn:Hf;
    [|done..].
  apply fetch_done in Hf as (u & Hu & -> & Hsrc).
  apply player_url_str in Hu as (s & Hs & ->).
  unfold pbind in Hm. destruct source as [pd|]; simpl in Hm; [|done].
  destruct (fields m pd) as [m1|e] eqn:Hfl; simpl in Hm; [|done].
  injection Hm as <- <-. by exists s, pd.
Qed.

Lemma for_each_done (f : member -> prog member) ms st st' ms' :
  for_each f ms st = (st', Done ms') ->
  Forall2 (fun m m' => exists st1 st2, f m st1 = (st2, Done m')) ms ms'.
Proof.
  revert st ms'. induction ms as [|m ms IH]; simpl; intros st ms' Hf.
  - injection Hf as <- <-. constructor.
  - unfold pbind at 1 in Hf.
    destruct (f m st) as [st1 [m1|e|c]] eqn:Hm; [|done..].
    unfold pbind at 1 in Hf.
    destruct (for_each f ms st1) as [st2 [r|e|c]] eqn:Hr; [|done..].
    simpl in Hf. injection Hf as <- <-.
    constructor; [by exists st, st1|by eapply IH].
Qed.

Lemma print_then {A} s (p : prog A) st st' r :
  (print s ;* p) st = (st', r) ->
  exists st1, requests st1 = requests st /\ report st1 = report st /\
              p st1 = (st', r).
Proof.
  unfold pbind, print. simpl. intros Hp.
  eexists. split; [|split; [|exact Hp]]; reflexivity.
Qed.

Lemma enriched_names (ms ms' : list member) :
  Forall2 (fun m m' => has_str_name m /\ username m' = username m) ms ms' ->
  Forall has_str_name ms /\ map username ms' = map username ms.
Proof.
  induction 1 as [|m m' ms ms' [Hn Hu] _ [IH1 IH2]]; simpl; [done|].
  split; [by constructor|by f_equal].
Qed.

(** The profile stage keeps the usernames where they are. *)
Lemma profile_stage_usernames ms st st' ms' :
  profile_stage web ms st = (st', Done ms') ->
  Forall has_str_name ms /\ map username ms' = map username ms.
Proof.
  intros Hp. apply print_then in Hp as (st1 & _ & _ & Hp).
  apply for_each_done in Hp. apply enriched_names.
  eapply Forall2_impl; [exact Hp|]. simpl.
  intros m m' (sa & sb & Hm).
  apply (member_step_done "" profile_fields) in Hm
    as (s & pd & Hs & _ & Hfl & _).
  split; [by exists s|by eapply profile_fields_username].
Qed.

(** So does the statistics stage. *)
Lemma stats_stage_usernames ms st st' ms' :
  stats_stage web ms st = (st', Done ms') ->
  Forall has_str_name ms /\ map username ms' = map username ms.
Proof.
  intros Hp. apply print_then in Hp as (st1 & _ & _ & Hp).
  apply for_each_done in Hp. apply enriched_names.
  eapply Forall2_impl; [exact Hp|]. simpl.
  intros m m' (sa & sb & Hm).
  apply (member_step_done "/stats" stats_fields) in Hm
    as (s & pd & Hs & _ & Hfl & _).
  split; [by exists s|by eapply stats_fields_username].
Qed.

Lemma roster_stage_done st st' ms :
  roster_stage CLUB_NAME web st = (st', Done ms) ->
  exists doc,
    web (length (requests st)) (roster_url CLUB_NAME) = Doc doc /\
    load_members doc = Ok ms.
Proof.
  intros Hr. apply print_then in Hr as (st1 & Hreq & _ & Hr).
  unfold pbind at 1 in Hr.
  destruct (fetch web (Ok (roster_url CLUB_NAME)) st1)
    as [st2 [source|e|c]] eqn:Hf; [|done..].
  apply fetch_done in Hf as (u & [= <-] & -> & Hsrc).
  unfold pbind at 1 in Hr. destruct source as [doc|]; simpl in Hr; [|done].
  unfold pbind at 1 in Hr.
  destruct (load_members doc) as [ms1|e] eqn:Hl; simpl in Hr; [|done].
  injection Hr as _ <-. exists doc. by rewrite <- Hreq.
Qed.

Lemma pbind_abort {A B} (p : prog A) (k : A -> prog B) st st1 e :
  p st = (st1, Abort e) -> pbind p k st = (st1, Abort e).
Proof. intros Hp. unfold pbind. by rewrite Hp. Qed.

Lemma pbind_exit {A B} (p : prog A) (k : A -> prog B) st st1 c :
  p st = (st1, Exit c) -> pbind p k st = (st1, Exit c).
Proof. intros Hp. unfold pbind. by rewrite Hp. Qed.

Lemma keeps_report_fetch url : keeps report (fetch web url).
Proof.
  intros st. unfold fetch. destruct url as [u|e]; [|done].
  by destruct (web (length (requests st)) u).
Qed.

Lemma keeps_report_for_each f ms :
  (forall m, keeps report (f m)) -> keeps report (for_each f ms).
Proof.
  intros Hf. induction ms as [|m ms IH]; simpl; [apply keeps_lift|].
  apply keeps_bind; [apply Hf|]. intros m'.
  apply keeps_bind; [apply IH|]. intros r. apply keeps_lift.
Qed.

Lemma keeps_report_member_step suffix
  (fields : member -> value -> result member) m :
  keeps report
    (let* source := fetch web (player_url m suffix) in
     let* player_data := lift (json_loads source) in
     lift (fields m player_data)).
Proof.
  apply keeps_bind; [apply keeps_report_fetch|]. intros source.
  apply keeps_bind; [apply keeps_lift|]. intros pd. apply keeps_lift.
Qed.

Lemma keeps_report_roster_stage : keeps report (roster_stage CLUB_NAME web).
Proof.
  apply keeps_bind; [done|]. intros _.
  apply keeps_bind; [apply keeps_report_fetch|]. intros source.
  apply keeps_bind; [apply keeps_lift|]. intros cm.
  apply keeps_bind; [apply keeps_lift|]. intros ms.
  apply keeps_bind; [done|]. intros _.
  apply keeps_bind; [done|]. intros _. apply keeps_lift.
Qed.

Lemma keeps_report_profile_stage ms : keeps report (profile_stage web ms).
Proof.
  apply keeps_bind; [done|]. intros _.
  apply keeps_report_for_each. intros m.
  apply (keeps_report_member_step "" profile_fields).
Qed.

Lemma keeps_report_stats_stage ms : keeps report (stats_stage web ms).
Proof.
  apply keeps_bind; [done|]. intros _.
  apply keeps_report_for_each. intros m.
  apply (keeps_report_member_step "/stats" stats_fields).
Qed.

Lemma keeps_report_plot_members ms ratings :
  keeps report (plot_members ms ratings).
Proof.
  induction ms as [|m ms IH]; simpl; [apply keeps_lift|].
  apply keeps_bind; [apply keeps_lift|]. intros uid.
  apply keeps_bind; [apply keeps_lift|]. intros ys.
  apply keeps_bind; [done|]. intros _. apply IH.
Qed.

Lemma keeps_report_chart_stage ms : keeps report (chart_stage ms).
Proof.
  apply keeps_bind; [done|]. intros _.
  apply keeps_bind; [apply keeps_lift|]. intros ratings.
  apply keeps_bind; [apply keeps_report_plot_members|]. done.
Qed.

(** The table written holds the records in the order of the list. *)
Lemma report_output_stage ms st :
  report (fst (output_stage PLOT ms st)) =
  Some {| header := headers; rows := map row_of ms |}.
Proof.
  unfold output_stage, pbind at 1 2. simpl.
  destruct PLOT; simpl; [|done].
  by rewrite keeps_report_chart_stage.
Qed.

Lemma str_names_of_Forall ms :
  Forall has_str_name ms -> exists ids, str_names ms = Some ids.
Proof.
  induction 1 as [|m ms [s Hs] _ [ids IH]]; simpl; [by exists []|].
  exists (s :: ids). by rewrite Hs, IH.
Qed.

Lemma str_names_usernames ms ms' :
  map username ms' = map username ms -> str_names ms' = str_names ms.
Proof.
  revert ms'. induction ms as [|m ms IH]; intros [|m' ms'] Hu; try done.
  simpl in *. injection Hu as Hm Hu. unfold username in Hm.
  by rewrite Hm, (IH _ Hu).
Qed.

Lemma first_column ms ids :
  str_names ms = Some ids ->
  map (fun row => head row) (map row_of ms) =
  map (fun s => Some (Some (VStr s))) ids.
Proof.
  revert ids. induction ms as [|m ms IH]; intros ids Hn.
  - by injection Hn as <-.
  - apply str_names_cons in Hn as (s & r & -> & Hm & Hr).
    simpl. by rewrite Hm, (IH _ Hr).
Qed.

(** C2: the profile stage and the statistics stage leave the usernames of
    the list where they are; and when the run writes a table, its rows are
    the records in ascending order of username: the order the roster
    loader gave the list, which is the one ascending arrangement of the
    usernames the roster listed, in whatever order it listed them. *)
Theorem rows_in_ascending_username_order :
  (forall ms st st' ms',
     profile_stage web ms st = (st', Done ms') ->
     map username ms' = map username ms) /\
  (forall ms st st' ms',
     stats_stage web ms st = (st', Done ms') ->
     map username ms' = map username ms) /\
  (forall t,
     report (fst (run CLUB_NAME PLOT web)) = Some t ->
     exists doc listed names loaded ids final,
       web 0 (roster_url CLUB_NAME) = Doc doc /\
       collect_members doc = Ok listed /\
       str_names listed = Some names /\
       load_members doc = Ok loaded /\
       str_names loaded = Some ids /\
       Permutation names ids /\
       Sorted String.le ids /\
       (forall ids', Permutation names ids' -> Sorted String.le ids' ->
                     ids' = ids) /\
       str_names final = Some ids /\
       rows t = map row_of final /\
       map (fun row => head row) (rows t) =
         map (fun s => Some (Some (VStr s))) ids).
Proof.
  split; [|split].
  - intros ms st st' ms' Hp. by apply profile_stage_usernames in Hp as [_ ?].
  - intros ms st st' ms' Hp. by apply stats_stage_usernames in Hp as [_ ?].
  - intros t. unfold run. rewrite script_stages.
    destruct (roster_stage CLUB_NAME web start) as [st1 [ms1|e|c]] eqn:H1.
    2: { rewrite (pbind_abort _ _ _ _ _ H1). simpl.
         pose proof (keeps_report_roster_stage start) as Hk.
         rewrite H1 in Hk. simpl in Hk. by rewrite Hk. }
    2: { rewrite (pbind_exit _ _ _ _ _ H1). simpl.
         pose proof (keeps_report_roster_stage start) as Hk.
         rewrite H1 in Hk. simpl in Hk. by rewrite Hk. }
    rewrite (pbind_done _ _ _ _ _ H1).
    assert (report st1 = None) as Hr1.
    { pose proof (keeps_report_roster_stage start) as Hk.
      by rewrite H1 in Hk. }
    destruct (profile_stage web ms1 st1) as [st2 [ms2|e|c]] eqn:H2.
    2: { rewrite (pbind_abort _ _ _ _ _ H2). simpl.
         pose proof (keeps_report_profile_stage ms1 st1) as Hk.
         rewrite H2 in Hk. simpl in Hk. by rewrite Hk, Hr1. }
    2: { rewrite (pbind_exit _ _ _ _ _ H2). simpl.
         pose proof (keeps_report_profile_stage ms1 st1) as Hk.
         rewrite H2 in Hk. simpl in Hk. by rewrite Hk, Hr1. }
    rewrite (pbind_done _ _ _ _ _ H2).
    assert (report st2 = None) as Hr2.
    { pose proof (keeps_report_profile_stage ms1 st1) as Hk.
      rewrite H2 in Hk. simpl in Hk. by rewrite Hk. }
    destruct (stats_stage web ms2 st2) as [st3 [ms3|e|c]] eqn:H3.
    2: { rewrite (pbind_abort _ _ _ _ _ H3). simpl.
         pose proof (keeps_report_stats_stage ms2 st2) as Hk.
         rewrite H3 in Hk. simpl in Hk. by rewrite Hk, Hr2. }
    2: { rewrite (pbind_exit _ _ _ _ _ H3). simpl.
         pose proof (keeps_report_stats_stage ms2 st2) as Hk.
         rewrite H3 in Hk. simpl in Hk. by rewrite Hk, Hr2. }
    rewrite (pbind_done _ _ _ _ _ H3), report_output_stage.
    intros [= <-]. simpl.
    apply roster_stage_done in H1 as (doc & Hdoc & Hload).
    apply profile_stage_usernames in H2 as [Hstr Hu2].
    apply stats_stage_usernames in H3 as [_ Hu3].
    destruct (str_names_of_Forall _ Hstr) as [ids Hids].
    assert (str_names ms3 = Some ids) as Hids3.
    { by rewrite (str_names_usernames ms2 ms3 Hu3),
                 (str_names_usernames ms1 ms2 Hu2). }
    pose proof Hload as Hload'. unfold load_members in Hload'.
    destruct (collect_members doc) as [listed|e] eqn:Hc;
      simpl in Hload'; [|done].
    apply sort_members_spec in Hload' as [Hperm Hsorted].
    destruct (str_names_perm ms1 listed ids) as (names & Hnames & Hpn);
      [by symmetry|done|].
    exists doc, listed, names, ms1, ids, ms3.
    assert (Permutation names ids) as Hni by by symmetry.
    assert (Sorted String.le ids) as Hsi by by apply Hsorted.
    split; [done|]. split; [done|]. split; [done|]. split; [done|].
    split; [done|]. split; [done|]. split; [done|]. split.
    { intros ids' Hp' Hs'. apply (Sorted_unique String.le); [done..|].
      by rewrite <- Hp'. }
    split; [done|]. split; [done|]. by apply first_column.
Qed.

End Order.

(** ** The profile stage on documents with missing keys *)

Section Profile.
Context (web : nat -> string -> reply).

Lemma profile_member_dict m s d st :
  m !! "username" = Some (VStr s) ->
  web (length (requests st)) ("https://api.chess.com/pub/player/" ++ s ++ "")
    = Doc (VDict d) ->
  profile_member web m st =
  (log_request ("https://api.chess.com/pub/player/" ++ s ++ "") st,
   Done (profile_record d m)).
Proof.
  intros Hs Hw. unfold profile_member, pbind, fetch, player_url, member_get.
  rewrite Hs. simpl. rewrite Hw. simpl. by rewrite profile_fields_dict.
Qed.

Lemma for_each_profile_dicts ms docs st :
  answers_with web (length (requests st)) "" ms docs ->
  exists st',
    for_each (profile_member web) ms st =
    (st', Done (zip_with profile_record docs ms)).
Proof.
  revert docs st. induction ms as [|m ms IH]; intros [|d docs] st Ha;
    simpl in Ha; try done.
  - by exists st.
  - destruct Ha as [(s & Hs & Hw) Ha]. simpl.
    unfold pbind at 1. rewrite (profile_member_dict _ _ _ _ Hs Hw).
    destruct (IH docs
                (log_request ("https://api.chess.com/pub/player/" ++ s ++ "") st))
      as [st' Hst'].
    { simpl. rewrite length_app. simpl.
      by replace (length (requests st) + 1)%nat with (S (length (requests st)))
        by lia. }
    exists st'. unfold pbind. by rewrite Hst'.
Qed.

(** C8: a profile document that is a mapping gives each of [name],
    [location] and [status] its value under that key, or the empty string
    when the key is absent; and whichever keys are absent, the profile
    stage goes through every member and ends well, ready for the next
    stage. *)
Theorem profile_stage_fills_or_empties
  (ms : list member) (docs : list (list (string * value))) (st : state) :
  answers_with web (length (requests st)) "" ms docs ->
  (forall m d k,
     In k ["name"; "location"; "status"] ->
     profile_fields m (VDict d) = Ok (profile_record d m) /\
     profile_record d m !! k =
       Some (match dict_get k d with
             | Some v => v
             | None => EMPTY
             end)) /\
  exists st',
    profile_stage web ms st = (st', Done (zip_with profile_record docs ms)).
Proof.
  intros Ha. split.
  - intros m d k Hk. split; [apply profile_fields_dict|].
    unfold profile_record, top_or_empty. simpl in Hk.
    destruct Hk as [<-|[<-|[<-|[]]]].
    + by rewrite lookup_insert_ne, lookup_insert_ne, lookup_insert_eq.
    + by rewrite lookup_insert_ne, lookup_insert_eq.
    + by rewrite lookup_insert_eq.
  - unfold profile_stage, pbind at 1. simpl. by apply for_each_profile_dicts.
Qed.

End Profile.

Section NonMapping.
Context `{Builtins}.

(** C10: there are statistics documents (["tactics": 5],
    ["puzzle_rush": null]) on which the enricher stores nothing and ends
    with [TypeError]; a nested read ends with a value exactly when every
    present segment of its path holds a mapping, and with [TypeError]
    otherwise; and a run that meets such a document ends with that
    exception uncaught, status 1 and no table. *)
Theorem non_mapping_segment_raises :
  (forall m, stats_fields m (VDict [("tactics", VInt 5)]) = Raise TypeError) /\
  (forall m, stats_fields m (VDict [("puzzle_rush", VNone)])
             = Raise TypeError) /\
  (forall pd a b c,
     (exists v, except_KeyError (get_path pd a b c) = Ok v) <->
     segments_are_mappings pd a b) /\
  (forall pd a b c,
     ~ segments_are_mappings pd a b ->
     except_KeyError (get_path pd a b c) = Raise TypeError) /\
  (forall club plot,
     snd (run club plot web_tactics_number) = Abort TypeError /\
     exit_status (snd (run club plot web_tactics_number)) = 1 /\
     report (fst (run club plot web_tactics_number)) = None).
Proof.
  split; [done|]. split; [done|].
  split; [apply nested_total_iff|]. split; [apply nested_not_mapping|].
  intros club plot. by vm_compute.
Qed.

End NonMapping.

Lemma non_mapping_segment_raises_witness :
  ~ segments_are_mappings (VDict [("tactics", VInt 5)]) "tactics" "highest" /\
  except_KeyError
    (get_path (VDict [("tactics", VInt 5)]) "tactics" "highest" "rating")
  = Raise TypeError.
Proof.
  assert (~ segments_are_mappings (VDict [("tactics", VInt 5)])
              "tactics" "highest") as Hn by (simpl; tauto).
  split; [exact Hn|].
  destruct (non_mapping_segment_raises (H := example_builtins))
    as (_ & _ & _ & Hraise & _).
  apply Hraise. exact Hn.
Defined.

(** ** What the chart is given *)

Section ChartLines.
Context `{Builtins}.

Lemma fill_ratings_from ms (r0 r : gmap string (list Z)) :
  fill_ratings ms r0 = Ok r ->
  forall uid ys, r !! uid = Some ys ->
    r0 !! uid = Some ys \/
    exists m, In m ms /\ member_uid m = Ok uid /\ rating_vector m = Ok ys.
Proof.
  revert r0. induction ms as [|m ms IH]; simpl; intros r0 Hf uid ys Hr.
  - injection Hf as <-. by left.
  - destruct (member_uid m) as [u|e] eqn:Hu; simpl in Hf; [|done].
    destruct (rating_vector m) as [v|e] eqn:Hv; simpl in Hf; [|done].
    destruct (IH _ Hf uid ys Hr) as [Hin|(m' & Hin & Hm')].
    + destruct (decide (u = uid)) as [->|Hne].
      * rewrite lookup_insert_eq in Hin. injection Hin as <-.
        right. exists m. by split; [left|].
      * rewrite lookup_insert_ne in Hin by done. by left.
    + right. exists m'. by split; [right|].
Qed.

Lemma plot_members_lines ms (r : gmap string (list Z)) st st' :
  plot_members ms r st = (st', Done tt) ->
  exists new,
    lines st' = (lines st ++ new)%list /\
    Forall2 (fun m l => member_uid m = Ok (fst l) /\
                        r !! fst l = Some (snd l)) ms new.
Proof.
  revert st. induction ms as [|m ms IH]; simpl; intros st Hp.
  - injection Hp as <-. exists []. split; [by rewrite app_nil_r|constructor].
  - unfold pbind at 1 in Hp.
    destruct (member_uid m) as [uid|e] eqn:Hu; simpl in Hp; [|done].
    unfold pbind at 1 in Hp.
    destruct (r !! uid) as [ys|] eqn:Hr; simpl in Hp; [|done].
    unfold pbind at 1 in Hp. simpl in Hp.
    destruct (IH _ Hp) as (new & Hl & HF). simpl in Hl.
    exists ((uid, ys) :: new). split.
    + by rewrite Hl, <- app_assoc.
    + by constructor.
Qed.

(** Every line the chart is given is labelled with the username of the
    member at that position and carries the vector of a record with that
    username (the last one, when a username has several records). *)
Lemma chart_lines_are_rating_vectors ms st st' :
  chart_stage ms st = (st', Done tt) ->
  exists new,
    lines st' = (lines st ++ new)%list /\
    Forall2 (fun m l =>
               member_uid m = Ok (fst l) /\
               exists m', In m' ms /\ member_uid m' = Ok (fst l) /\
                          rating_vector m' = Ok (snd l)) ms new.
Proof.
  unfold chart_stage. intros Hc.
  unfold pbind at 1 in Hc. simpl in Hc. unfold pbind at 1 in Hc.
  destruct (fill_ratings ms ∅) as [r|e] eqn:Hf; simpl in Hc; [|done].
  unfold pbind at 1 in Hc.
  match type of Hc with
  | context [plot_members ms r ?s] =>
      destruct (plot_members ms r s) as [st1 [[]|e|c]] eqn:Hp; [|done..]
  end.
  simpl in Hc. injection Hc as <-.
  apply plot_members_lines in Hp as (new & Hl & HF). simpl in *.
  exists new. split; [done|].
  eapply Forall2_impl; [exact HF|]. simpl.
  intros m [uid ys] [Hu Hr]. split; [done|]. simpl in *.
  destruct (fill_ratings_from _ _ _ Hf uid ys Hr) as [He|Hm]; [|done].
  by rewrite lookup_empty in He.
Qed.

End ChartLines.

(** ** The theorems on examples *)

Lemma rows_in_ascending_username_order_witness :
  exists t,
    report (fst (run (H := example_builtins) "mensa-argentina" true web_empty_documents)) = Some t /\
    exists doc listed names loaded ids final,
      web_empty_documents 0 (roster_url "mensa-argentina") = Doc doc /\
      collect_members doc = Ok listed /\
      str_names listed = Some names /\
      load_members (H := example_builtins) doc = Ok loaded /\
      str_names loaded = Some ids /\
      Permutation names ids /\
      Sorted String.le ids /\
      (forall ids', Permutation names ids' -> Sorted String.le ids' ->
                    ids' = ids) /\
      str_names final = Some ids /\
      rows t = map row_of final /\
      map (fun row => head row) (rows t) =
        map (fun s => Some (Some (VStr s))) ids.
Proof.
  eexists. split; [vm_compute; reflexivity|].
  apply (proj2 (proj2 (rows_in_ascending_username_order
                         (H := example_builtins)
                         "mensa-argentina" true web_empty_documents))).
  vm_compute. reflexivity.
Defined.

Lemma rating_reads_its_selector_only_witness :
  differ_only_under "chess_blitz" "highest"
    (blitz_document 1000) (blitz_document 1100) /\
  In ("chess_blitz", "last") rating_lists /\
  rating_field (VDict (blitz_document 1000)) "chess_blitz" "last" =
    rating_field (VDict (blitz_document 1100)) "chess_blitz" "last" /\
  forall m, stats_fields m (VDict (blitz_document 1000)) =
            stats_fields m (VDict (blitz_document 1100)).
Proof.
  assert (differ_only_under "chess_blitz" "highest"
            (blitz_document 1000) (blitz_document 1100)) as Hd.
  { split.
    - intros k Hk. simpl.
      destruct (String.eqb_spec k "chess_blitz"); [contradiction|reflexivity].
    - eexists _, _. split; [reflexivity|]. split; [reflexivity|].
      intros k Hk. simpl.
      destruct (String.eqb_spec k "last"); [reflexivity|].
      destruct (String.eqb_spec k "highest"); [contradiction|reflexivity]. }
  split; [exact Hd|].
  apply (proj1 (rating_reads_its_selector_only "chess_blitz"
                  (blitz_document 1000) (blitz_document 1100))).
  - simpl. tauto.
  - exact Hd.
Defined.

Lemma rating_vector_cells_example :
  rating_vector (H := example_builtins) charted_record
    = Ok [1200; 800; 900; 800; 800; 1500].
Proof.
  apply (rating_vector_cells (H := example_builtins) charted_record
           [Some 1200; None; Some 900; None; None; Some 1500]).
  vm_compute. reflexivity.
Qed.

Lemma unanswered_request_ends_the_run_witness :
  requests (fst (run (H := example_builtins) "mensa-argentina" true web_third_unanswered)) !! 3%nat
    = Some "https://api.chess.com/pub/player/cy" /\
  web_third_unanswered 3 "https://api.chess.com/pub/player/cy" = Unreachable /\
  snd (run (H := example_builtins) "mensa-argentina" true web_third_unanswered) = Exit 1 /\
  report (fst (run (H := example_builtins) "mensa-argentina" true web_third_unanswered)) = None.
Proof.
  split; [vm_compute; reflexivity|]. split; [reflexivity|].
  destruct (unanswered_request_ends_the_run (H := example_builtins)
              "mensa-argentina" true web_third_unanswered 3%nat
              "https://api.chess.com/pub/player/cy")
    as (Hexit & _ & _ & Hreport & _).
  - vm_compute. reflexivity.
  - reflexivity.
  - split; [exact Hexit|exact Hreport].
Defined.

Lemma profile_stage_fills_or_empties_witness :
  answers_with web_names_only (length (requests start)) ""
    [id_record "Bob"; id_record "alice"]
    [[("name", VStr "A. N. Other")]; [("name", VStr "A. N. Other")]] /\
  exists st',
    profile_stage web_names_only [id_record "Bob"; id_record "alice"] start =
    (st', Done (zip_with profile_record
                  [[("name", VStr "A. N. Other")];
                   [("name", VStr "A. N. Other")]]
                  [id_record "Bob"; id_record "alice"])).
Proof.
  assert (answers_with web_names_only (length (requests start)) ""
            [id_record "Bob"; id_record "alice"]
            [[("name", VStr "A. N. Other")]; [("name", VStr "A. N. Other")]])
    as Ha.
  { simpl. split; [exists "Bob"; split; reflexivity|].
    split; [exists "alice"; split; reflexivity|exact I]. }
  split; [exact Ha|].
  apply (profile_stage_fills_or_empties web_names_only _ _ start Ha).
Defined.

(** * Further properties of the script *)

(** ** The enrichments as unions *)

Lemma store_all_raise l (a m : member) e :
  store_all l a = Raise e -> store_all l m = Raise e.
Proof.
  revert a m. induction l as [|[k r] l IH]; simpl; intros a m Ha; [done|].
  destruct r as [v|e']; simpl in *; [by eapply IH|done].
Qed.

Lemma store_all_union l (a m s : member) :
  store_all l a = Ok s -> store_all l (a ∪ m) = Ok (s ∪ m).
Proof.
  revert a. induction l as [|[k r] l IH]; simpl; intros a Ha.
  - by injection Ha as <-.
  - destruct r as [v|e]; simpl in *; [|done].
    rewrite insert_union_l. by apply IH.
Qed.

Lemma store_all_dom l (a s : member) :
  store_all l a = Ok s ->
  dom s = dom a ∪ list_to_set (map fst l).
Proof.
  revert a. induction l as [|[k r] l IH]; simpl; intros a Ha.
  - injection Ha as <-. set_solver.
  - destruct r as [v|e]; simpl in *; [|done].
    rewrite (IH _ Ha), dom_insert_L. set_solver.
Qed.

Lemma stats_fields_union (m : member) (player_data : value) :
  stats_fields m player_data =
    match stats_fields ∅ player_data with
    | Ok stored => Ok (stored ∪ m)
    | Raise e => Raise e
    end.
Proof.
  rewrite !stats_fields_store.
  destruct (store_all (stats_results player_data) ∅) as [s|e] eqn:Hs.
  - rewrite <- (left_id_L ∅ (∪) m) at 1. by apply store_all_union.
  - by eapply store_all_raise.
Qed.

Lemma stats_stored_dom (player_data : value) (stored : member) :
  stats_fields ∅ player_data = Ok stored ->
  dom stored = list_to_set stats_keys.
Proof.
  rewrite stats_fields_store. intros Hs.
  rewrite (store_all_dom _ _ _ Hs), dom_empty_L.
  unfold stats_keys, stats_results. simpl. set_solver.
Qed.

Lemma profile_fields_union (m : member) (player_data : value) :
  profile_fields m player_data =
    match profile_fields ∅ player_data with
    | Ok stored => Ok (stored ∪ m)
    | Raise e => Raise e
    end.
Proof.
  unfold profile_fields.
  destruct (field_or_empty "name" player_data) as [a|e]; simpl; [|done].
  destruct (field_or_empty "location" player_data) as [b|e]; simpl; [|done].
  destruct (field_or_empty "status" player_data) as [c|e]; simpl; [|done].
  by rewrite <- !insert_union_l, (left_id_L ∅ (∪) m).
Qed.

Lemma profile_stored_dom (player_data : value) (stored : member) :
  profile_fields ∅ player_data = Ok stored ->
  dom stored = list_to_set profile_keys.
Proof.
  unfold profile_fields.
  destruct (field_or_empty "name" player_data) as [a|e]; simpl; [|done].
  destruct (field_or_empty "location" player_data) as [b|e]; simpl; [|done].
  destruct (field_or_empty "status" player_data) as [c|e]; simpl; [|done].
  intros [= <-]. rewrite !dom_insert_L, dom_empty_L.
  unfold profile_keys. simpl. set_solver.
Qed.

(** The statistics enrichment is a union: the nine values it stores depend
    on the document alone, they replace what the record held under those
    keys, and every other key of the record stays; whether it raises, and
    what, does not depend on the record either. *)
Theorem stats_fields_is_union (m : member) (player_data : value) :
  stats_fields m player_data =
    match stats_fields ∅ player_data with
    | Ok stored => Ok (stored ∪ m)
    | Raise e => Raise e
    end /\
  forall stored, stats_fields ∅ player_data = Ok stored ->
                 dom stored = list_to_set stats_keys.
Proof. split; [apply stats_fields_union|apply stats_stored_dom]. Qed.

(** So is the profile enrichment, with its three keys. *)
Theorem profile_fields_is_union (m : member) (player_data : value) :
  profile_fields m player_data =
    match profile_fields ∅ player_data with
    | Ok stored => Ok (stored ∪ m)
    | Raise e => Raise e
    end /\
  forall stored, profile_fields ∅ player_data = Ok stored ->
                 dom stored = list_to_set profile_keys.
Proof. split; [apply profile_fields_union|apply profile_stored_dom]. Qed.

Lemma stored_disjoint (p s : member) :
  dom p = list_to_set profile_keys -> dom s = list_to_set stats_keys ->
  p ##ₘ s.
Proof.
  intros Hp Hs. apply map_disjoint_dom. rewrite Hp, Hs.
  unfold profile_keys, stats_keys. simpl. set_solver.
Qed.

(** The two enrichments store under different keys, so the record they
    leave does not depend on which of them ran first. *)
Theorem enrichments_commute (m m1 m2 : member) (profile stats : value) :
  (let! r := profile_fields m profile in stats_fields r stats) = Ok m1 ->
  (let! r := stats_fields m stats in profile_fields r profile) = Ok m2 ->
  m1 = m2.
Proof.
  intros H1 H2.
  rewrite (profile_fields_union m profile) in H1.
  rewrite (stats_fields_union m stats) in H2.
  destruct (profile_fields ∅ profile) as [p|e] eqn:Ep; simpl in H1; [|done].
  destruct (stats_fields ∅ stats) as [s|e] eqn:Es; simpl in H2; [|done].
  rewrite (stats_fields_union (p ∪ m) stats), Es in H1.
  rewrite (profile_fields_union (s ∪ m) profile), Ep in H2.
  injection H1 as <-. injection H2 as <-.
  rewrite !(assoc_L (∪)). f_equal.
  symmetry. apply map_union_comm, stored_disjoint;
    [by eapply profile_stored_dom|by eapply stats_stored_dom].
Qed.

(** ** What the statistics enrichment stores *)

(** The record never holds a [fide] equal to zero. *)
Theorem fide_is_never_zero (m m' : member) (player_data : value) :
  stats_fields m player_data = Ok m' ->
  exists v, m' !! "fide" = Some v /\ py_eq_zero v = false.
Proof.
  intros Hs. rewrite stats_fields_store in Hs.
  destruct (store_all_stored _ _ _ "fide" (fide_field player_data) Hs)
    as (v & Hv & Hm); [apply stats_keys_NoDup|by left|].
  exists v. split; [done|].
  unfold fide_field in Hv.
  destruct (field_or_empty "fide" player_data) as [x|e]; simpl in Hv; [|done].
  injection Hv as <-. by destruct (py_eq_zero x) eqn:E.
Qed.

(** A nested path that is all there has its value stored as it is. *)
Theorem present_path_is_stored (a b c : string) (m m' : member)
  (player_data v : value) :
  In (a, (b, c)) nested_fields ->
  get_path player_data a b c = Ok v ->
  stats_fields m player_data = Ok m' ->
  m' !! a = Some v.
Proof.
  intros Hin Hv Hs. rewrite stats_fields_store in Hs.
  destruct (store_all_stored _ _ _ a
              (except_KeyError (get_path player_data a b c)) Hs)
    as (x & Hx & Hm); [apply stats_keys_NoDup| |].
  - unfold nested_fields, rating_lists in Hin. simpl in Hin.
    unfold stats_results, puzzle_rush_field, rating_field, rating_lists.
    simpl. right.
    repeat (destruct Hin as [[= <- <- <-]|Hin]; [tauto|]). done.
  - rewrite Hv in Hx. simpl in Hx. by injection Hx as <-.
Qed.

(** ** What the roster loader returns *)

Lemma map_result_Forall2 {A B} (f : A -> result B) l r :
  map_result f l = Ok r -> Forall2 (fun x y => f x = Ok y) l r.
Proof.
  revert r. induction l as [|x l IH]; simpl; intros r Hr.
  - injection Hr as <-. constructor.
  - destruct (f x) as [y|e] eqn:Hx; simpl in Hr; [|done].
    destruct (map_result f l) as [ys|e]; simpl in Hr; [|done].
    injection Hr as <-. constructor; [done|by apply IH].
Qed.

Lemma new_member_username_only e m : new_member e = Ok m -> username_only m.
Proof.
  unfold new_member.
  destruct (py_getitem e "username") as [u|x]; simpl; [|done].
  intros [= <-]. by exists u.
Qed.

Lemma bucket_members_username_only b ms :
  bucket_members b = Ok ms -> Forall username_only ms.
Proof.
  unfold bucket_members.
  destruct (py_iter b) as [es|x]; simpl; [|done].
  intros Hm. apply map_result_Forall2 in Hm.
  induction Hm as [|e m es ms He _ IH]; constructor; [|done].
  by eapply new_member_username_only.
Qed.

Lemma collect_members_username_only r ms :
  collect_members r = Ok ms -> Forall username_only ms.
Proof.
  destruct r as [| | | | | |d]; simpl; try done.
  destruct (map_result (fun kv => bucket_members (snd kv)) d) as [pb|x] eqn:Hd;
    simpl; [|done].
  intros [= <-]. apply map_result_Forall2 in Hd.
  induction Hd as [|kv b d pb Hb _ IH]; simpl; [constructor|].
  apply Forall_app. split; [by eapply bucket_members_username_only|done].
Qed.

Lemma py_chars_cons a s : py_chars (String a s) <> [].
Proof.
  simpl. destruct (py_chars s); [done|].
  by destruct (starts_with_continuation s).
Qed.

(** A bucket in the place of which the response holds something else than
    a list is walked by its keys (a mapping) or characters (a string),
    none of which has a [username]: it gives no member when it is empty
    and raises [TypeError] otherwise; null, numbers and booleans, which
    cannot be walked, raise [TypeError] as well.  So only a bucket that is
    a list gives members, one per element. *)
Theorem bucket_gives_members_only_as_list (type_list : value) :
  (forall l, type_list = VList l ->
             bucket_members type_list = map_result new_member l) /\
  ((forall l, type_list <> VList l) ->
   bucket_members type_list =
     if empty_container type_list then Ok [] else Raise TypeError) /\
  (forall ms, bucket_members type_list = Ok ms ->
              (exists l, type_list = VList l) \/ ms = []).
Proof.
  assert ((forall l, type_list <> VList l) ->
          bucket_members type_list =
            if empty_container type_list then Ok [] else Raise TypeError)
    as Hother.
  { intros Hl. unfold bucket_members.
    destruct type_list as [| | | |s|l|d]; try (simpl; done).
    - destruct s as [|a s]; [done|].
      pose proof (py_chars_cons a s) as Hne. unfold py_iter.
      destruct (py_chars (String a s)) as [|c cs]; [done|]. done.
    - by destruct (Hl l).
    - by destruct d as [|[k v] d]. }
  split; [by intros l ->|]. split; [exact Hother|].
  intros ms Hms.
  destruct type_list as [| | | |s|l|d];
    try (rewrite Hother in Hms by done; simpl in Hms; done).
  - rewrite Hother in Hms by done.
    destruct (empty_container (VStr s)); [|done].
    injection Hms as <-. by right.
  - left. by exists l.
  - rewrite Hother in Hms by done.
    destruct (empty_container (VDict d)); [|done].
    injection Hms as <-. by right.
Qed.

Section LoaderRecords.
Context `{Builtins}.

(** Every record the loader returns holds a username and nothing else. *)
Theorem loader_records_hold_username_only (club_members : value) ms :
  load_members club_members = Ok ms -> Forall username_only ms.
Proof.
  unfold load_members.
  destruct (collect_members club_members) as [ms0|e] eqn:Hc; simpl; [|done].
  intros Hs. apply sort_members_spec in Hs as [Hp _].
  eapply Permutation_Forall; [exact Hp|].
  by eapply collect_members_username_only.
Qed.

End LoaderRecords.

Lemma bucket_unnamed l :
  Forall (fun e => exists o, e = VDict o) l ->
  (exists ms, map_result new_member l = Ok ms) \/
  map_result new_member l = Raise KeyError.
Proof.
  induction 1 as [|e l [o ->] _ IH]; simpl; [left; by eexists|].
  unfold new_member at 1 3. simpl.
  destruct (dict_get "username" o) as [u|]; simpl; [|by right].
  destruct IH as [[ms ->]| ->]; simpl; [left; by eexists|by right].
Qed.

Lemma bucket_unnamed_raises l :
  Forall (fun e => exists o, e = VDict o) l ->
  Exists (fun e => exists o, e = VDict o /\ dict_get "username" o = None) l ->
  map_result new_member l = Raise KeyError.
Proof.
  intros HF HE. induction HE as [e l (o & -> & Ho)|e l HE IH].
  - simpl. unfold new_member at 1. simpl. by rewrite Ho.
  - inversion HF as [|? ? [o ->] HF']; subst. simpl.
    unfold new_member at 1. simpl.
    destruct (dict_get "username" o) as [u|]; simpl; [|done].
    by rewrite (IH HF').
Qed.

Lemma roster_unnamed_raises d :
  lists_objects d -> some_object_unnamed d ->
  map_result (fun kv => bucket_members (snd kv)) d = Raise KeyError.
Proof.
  intros HF HE. induction HE as [[k b] d (l & Hb & Hl)|[k b] d HE IH];
    inversion HF as [|? ? (l' & Hb' & Hl') HF']; subst; simpl in *.
  - rewrite Hb in Hb'. injection Hb' as <-. subst b.
    unfold bucket_members. simpl. by rewrite (bucket_unnamed_raises l).
  - subst b. unfold bucket_members at 1. simpl.
    destruct (bucket_unnamed l' Hl') as [[ms ->]| ->]; simpl; [|done].
    by rewrite (IH HF').
Qed.

(** ** The stages, request by request *)

Lemma requested_nil st : requested [] st st.
Proof. unfold requested. by rewrite app_nil_r. Qed.

Lemma requested_app a b st1 st2 st3 :
  requested a st1 st2 -> requested b st2 st3 -> requested (a ++ b) st1 st3.
Proof.
  intros (Hr1 & Ho1 & Hp1 & Hl1 & Hs1) (Hr2 & Ho2 & Hp2 & Hl2 & Hs2).
  unfold requested. rewrite Hr2, Hr1, Ho2, Ho1, Hp2, Hp1, Hl2, Hl1, Hs2, Hs1.
  by rewrite app_assoc.
Qed.

Lemma complete_after (m1 m2 m3 : member) pd sd :
  has_str_name m1 ->
  profile_fields m1 pd = Ok m2 -> stats_fields m2 sd = Ok m3 ->
  complete m3.
Proof.
  intros [s Hs] Hp Hst.
  rewrite profile_fields_union in Hp.
  destruct (profile_fields ∅ pd) as [p|e] eqn:Ep; [|done].
  injection Hp as <-.
  rewrite stats_fields_union in Hst.
  destruct (stats_fields ∅ sd) as [q|e] eqn:Eq; [|done].
  injection Hst as <-.
  apply profile_stored_dom in Ep. apply stats_stored_dom in Eq.
  assert ("username" ∈ dom m1) as Hu by (apply elem_of_dom; by eexists).
  unfold complete, columns.
  repeat (constructor;
          [apply elem_of_dom; rewrite !dom_union_L, Ep, Eq;
           unfold profile_keys, stats_keys; simpl; set_solver|]).
  constructor.
Qed.

Section Stages.
Context `{Builtins} (CLUB_NAME : string) (PLOT : bool)
  (web : nat -> string -> reply).

Lemma for_each_member_steps suffix
  (fields : member -> value -> result member) (f : member -> prog member) :
  (forall m,
     f m = (let* source := fetch web (player_url m suffix) in
            let* player_data := lift (json_loads source) in
            lift (fields m player_data))) ->
  forall ms st st' ms',
    for_each f ms st = (st', Done ms') ->
    exists ids,
      str_names ms = Some ids /\
      requested (map (player_page suffix) ids) st st' /\
      Forall2 (fun m m' => exists pd, fields m pd = Ok m') ms ms'.
Proof.
  intros Hf ms. induction ms as [|m ms IH]; simpl; intros st st' ms' Hd.
  - injection Hd as <- <-. exists []. split; [done|].
    split; [apply requested_nil|constructor].
  - unfold pbind at 1 in Hd.
    destruct (f m st) as [st1 [m1|e|c]] eqn:Hm; [|done..].
    rewrite Hf in Hm.
    apply (member_step_done web suffix fields) in Hm
      as (s & pd & Hs & _ & Hfl & ->).
    unfold pbind at 1 in Hd.
    destruct (for_each f ms (log_request _ st)) as [st2 [r|e|c]] eqn:Hr;
      [|done..].
    simpl in Hd. injection Hd as <- <-.
    destruct (IH _ _ _ Hr) as (ids & Hids & Hreq & HF).
    exists (s :: ids). simpl. rewrite Hs, Hids. split; [done|]. split.
    + apply (requested_app [player_page suffix s] _ st
               (log_request (player_page suffix s) st)); [|exact Hreq].
      by unfold requested, log_request.
    + constructor; [by exists pd|done].
Qed.

Lemma profile_stage_steps ms st st' ms' :
  profile_stage web ms st = (st', Done ms') ->
  exists ids,
    str_names ms = Some ids /\
    requests st' = (requests st ++ map (player_page "") ids)%list /\
    stdout st' =
      (stdout st ++ ["Getting Players information from web site..."])%list /\
    report st' = report st /\ lines st' = lines st /\
    shown st' = shown st /\
    Forall2 (fun m m' => exists pd, profile_fields m pd = Ok m') ms ms'.
Proof.
  unfold profile_stage, pbind at 1. simpl. intros Hd.
  apply (for_each_member_steps "" profile_fields) in Hd
    as (ids & Hids & (Hr & Ho & Hp & Hl & Hs) & HF); [|done].
  exists ids. by repeat split.
Qed.

Lemma stats_stage_steps ms st st' ms' :
  stats_stage web ms st = (st', Done ms') ->
  exists ids,
    str_names ms = Some ids /\
    requests st' = (requests st ++ map (player_page "/stats") ids)%list /\
    stdout st' =
      (stdout st ++ ["Getting Stats information from web site..."])%list /\
    report st' = report st /\ lines st' = lines st /\
    shown st' = shown st /\
    Forall2 (fun m m' => exists pd, stats_fields m pd = Ok m') ms ms'.
Proof.
  unfold stats_stage, pbind at 1. simpl. intros Hd.
  apply (for_each_member_steps "/stats" stats_fields) in Hd
    as (ids & Hids & (Hr & Ho & Hp & Hl & Hs) & HF); [|done].
  exists ids. by repeat split.
Qed.

Lemma roster_stage_steps st st' ms :
  roster_stage CLUB_NAME web st = (st', Done ms) ->
  requests st' = (requests st ++ [roster_url CLUB_NAME])%list /\
  stdout st' =
    (stdout st ++
     [ "Getting list of club members from web site...";
       ("Club Name:  " ++ CLUB_NAME)%string;
       ("Number of Club members:  " ++ pretty (length ms))%string ])%list /\
  report st' = report st /\ lines st' = lines st /\ shown st' = shown st.
Proof.
  unfold roster_stage, pbind at 1. simpl. unfold pbind at 1, fetch.
  destruct (web _ (roster_url CLUB_NAME)) as [| |doc]; simpl; [done..|].
  unfold pbind at 1. simpl. unfold pbind at 1.
  destruct (load_members doc) as [ms1|e]; simpl; [|done].
  unfold pbind. simpl. intros [= <- <-]. simpl.
  rewrite <- !app_assoc. by repeat split.
Qed.

End Stages.

Lemma str_names_length ms ids :
  str_names ms = Some ids -> length ms = length ids.
Proof.
  revert ids. induction ms as [|m ms IH]; intros ids Hn.
  - by injection Hn as <-.
  - apply str_names_cons in Hn as (s & r & -> & _ & Hr).
    simpl. by rewrite (IH _ Hr).
Qed.

Lemma complete_all (ms1 ms2 ms3 : list member) :
  Forall has_str_name ms1 ->
  Forall2 (fun m m' => exists pd, profile_fields m pd = Ok m') ms1 ms2 ->
  Forall2 (fun m m' => exists pd, stats_fields m pd = Ok m') ms2 ms3 ->
  Forall complete ms3.
Proof.
  intros Hn H12. revert ms3 Hn.
  induction H12 as [|m1 m2 ms1 ms2 [pd Hp] _ IH]; intros ms3 Hn H23;
    inversion H23 as [|? m3 ? ms3' [sd Hs] H23']; subst; [constructor|].
  inversion Hn as [|? ? Hm1 Hn']; subst.
  constructor; [by eapply complete_after|by apply IH].
Qed.

Lemma rows_complete ms :
  Forall complete ms ->
  Forall (fun row => length row = length headers /\ Forall is_Some row)
    (map row_of ms).
Proof.
  induction 1 as [|m ms Hm _ IH]; simpl; constructor; [|done].
  split; [done|]. unfold row_of. by apply Forall_map.
Qed.

Lemma plot_members_facts ms (r : gmap string (list Z)) st st' o :
  plot_members ms r st = (st', o) ->
  requests st' = requests st /\ report st' = report st /\
  stdout st' = stdout st /\ shown st' = shown st /\
  forall c, o <> Exit c.
Proof.
  revert st. induction ms as [|m ms IH]; simpl; intros st Hp.
  - by injection Hp as <- <-.
  - unfold pbind at 1 in Hp.
    destruct (member_uid m) as [uid|e]; simpl in Hp;
      [|by injection Hp as <- <-].
    unfold pbind at 1 in Hp.
    destruct (r !! uid) as [ys|]; simpl in Hp; [|by injection Hp as <- <-].
    unfold pbind at 1 in Hp. simpl in Hp.
    by destruct (IH _ Hp) as (? & ? & ? & ? & ?).
Qed.

Section Whole.
Context `{Builtins} (CLUB_NAME : string) (PLOT : bool)
  (web : nat -> string -> reply).

Lemma chart_stage_facts ms st st' o :
  chart_stage ms st = (st', o) ->
  requests st' = requests st /\ report st' = report st /\
  stdout st' = (stdout st ++ ["Drawing chart..."])%list /\
  match o with
  | Done _ => shown st' = true
  | Abort _ => shown st' = shown st
  | Exit _ => False
  end.
Proof.
  unfold chart_stage, pbind at 1. simpl. unfold pbind at 1.
  destruct (fill_ratings ms ∅) as [r|e]; simpl;
    [|by intros [= <- <-]].
  unfold pbind at 1.
  match goal with
  | |- context [plot_members ms r ?s] =>
      destruct (plot_members ms r s) as [st1 o1] eqn:Hp
  end.
  apply plot_members_facts in Hp as (Hr & Hp & Ho & Hs & Hx). simpl in *.
  destruct o1 as [[]|e|c]; [|by intros [= <- <-]|by destruct (Hx c)].
  unfold show. by intros [= <- <-].
Qed.

(** What the output stage does to a state in which nothing is shown. *)
Lemma output_stage_facts ms st st' o :
  output_stage PLOT ms st = (st', o) ->
  shown st = false ->
  requests st' = requests st /\
  report st' = Some {| header := headers; rows := map row_of ms |} /\
  stdout st' =
    (stdout st ++
     "Writing output file" :: if PLOT then ["Drawing chart..."] else [])%list /\
  match o with
  | Done _ =>
      PLOT = true /\ shown st' = true /\
      exists st0, lines st0 = lines st /\ chart_stage ms st0 = (st', Done tt)
  | Abort _ => PLOT = true /\ shown st' = false
  | Exit c => c = 0 /\ PLOT = false /\ shown st' = false /\ lines st' = lines st
  end.
Proof.
  unfold output_stage, pbind at 1 2. simpl. intros Ho Hs.
  destruct PLOT; simpl in Ho.
  - pose proof (chart_stage_facts _ _ _ _ Ho) as (Hr & Hp & Hout & Hend).
    simpl in *. rewrite <- app_assoc in Hout.
    split; [done|]. split; [done|]. split; [done|].
    destruct o as [[]|e|c]; [|by rewrite Hend|done].
    split; [done|]. split; [done|]. eexists. split; [|exact Ho]. done.
  - injection Ho as <- <-. simpl. by repeat split.
Qed.

Lemma clean_start : clean web start.
Proof. split; [intros ? ? ?|]; done. Qed.

(** The run either loads everything and goes on to the output stage, or
    stops in a loading stage with nothing written or drawn. *)
Lemma run_shape :
  (exists st3 ms3 ids,
     run CLUB_NAME PLOT web = output_stage PLOT ms3 st3 /\
     str_names ms3 = Some ids /\
     requests st3 =
       roster_url CLUB_NAME ::
       (map (player_page "") ids ++ map (player_page "/stats") ids)%list /\
     stdout st3 = progress CLUB_NAME (length ids) /\
     report st3 = None /\ lines st3 = [] /\ shown st3 = false /\
     Forall complete ms3) \/
  (quiet (fst (run CLUB_NAME PLOT web)) /\
   ((exists e, snd (run CLUB_NAME PLOT web) = Abort e) \/
    snd (run CLUB_NAME PLOT web) = Exit 1)).
Proof.
  unfold run. rewrite script_stages.
  pose proof (loads_roster_stage CLUB_NAME web start clean_start) as L1.
  destruct (roster_stage CLUB_NAME web start) as [st1 [ms1|e|c]] eqn:H1;
    simpl in L1.
  2: { right. rewrite (pbind_abort _ _ _ _ _ H1). simpl.
       destruct L1. split; [done|]. left. by eexists. }
  2: { right. rewrite (pbind_exit _ _ _ _ _ H1). simpl.
       destruct L1 as (-> & ? & _). split; [done|]. by right. }
  rewrite (pbind_done _ _ _ _ _ H1).
  pose proof (loads_profile_stage web ms1 st1 L1) as L2.
  destruct (profile_stage web ms1 st1) as [st2 [ms2|e|c]] eqn:H2;
    simpl in L2.
  2: { right. rewrite (pbind_abort _ _ _ _ _ H2). simpl.
       destruct L2. split; [done|]. left. by eexists. }
  2: { right. rewrite (pbind_exit _ _ _ _ _ H2). simpl.
       destruct L2 as (-> & ? & _). split; [done|]. by right. }
  rewrite (pbind_done _ _ _ _ _ H2).
  pose proof (loads_stats_stage web ms2 st2 L2) as L3.
  destruct (stats_stage web ms2 st2) as [st3 [ms3|e|c]] eqn:H3;
    simpl in L3.
  2: { right. rewrite (pbind_abort _ _ _ _ _ H3). simpl.
       destruct L3. split; [done|]. left. by eexists. }
  2: { right. rewrite (pbind_exit _ _ _ _ _ H3). simpl.
       destruct L3 as (-> & ? & _). split; [done|]. by right. }
  rewrite (pbind_done _ _ _ _ _ H3). left.
  destruct L3 as [_ (Hq1 & Hq2 & Hq3)].
  pose proof (roster_stage_steps _ _ _ _ _ H1) as (R1 & O1 & _).
  pose proof (profile_stage_usernames _ _ _ _ _ H2) as [Hn1 Hu2].
  pose proof (stats_stage_usernames _ _ _ _ _ H3) as [_ Hu3].
  apply profile_stage_steps in H2 as (ids & Hids & R2 & O2 & _ & _ & _ & F2).
  apply stats_stage_steps in H3 as (ids' & Hids' & R3 & O3 & _ & _ & _ & F3).
  rewrite (str_names_usernames _ _ Hu2), Hids in Hids'.
  injection Hids' as <-.
  exists st3, ms3, ids. split; [done|].
  split; [by rewrite (str_names_usernames _ _ Hu3),
                     (str_names_usernames _ _ Hu2)|].
  split; [by rewrite R3, R2, R1, <- app_assoc|].
  split.
  { rewrite O3, O2, O1. simpl. unfold progress.
    by rewrite (str_names_length _ _ Hids). }
  split; [done|]. split; [done|]. split; [done|].
  by eapply complete_all.
Qed.

End Whole.

Lemma rating_vector_length `{Builtins} m v :
  rating_vector m = Ok v -> length v = length rating_names.
Proof.
  unfold rating_vector. intros Hv. apply map_result_Forall2 in Hv.
  apply Forall2_length in Hv. by rewrite <- Hv.
Qed.

Lemma chart_labels `{Builtins} (ms : list member) ids
  (new : list (string * list Z)) :
  str_names ms = Some ids ->
  Forall2 (fun m l =>
             member_uid m = Ok (fst l) /\
             exists m', In m' ms /\ member_uid m' = Ok (fst l) /\
                        rating_vector m' = Ok (snd l)) ms new ->
  map fst new = ids /\
  Forall (fun l => length (snd l) = length rating_names) new.
Proof.
  intros Hn HF. revert ids Hn.
  induction HF as [|m l ms0 new [Hu (m' & _ & _ & Hv)] _ IH]; intros ids Hn.
  - injection Hn as <-. by split.
  - apply str_names_cons in Hn as (s & r & -> & Hs & Hr).
    destruct (IH _ Hr) as [IH1 IH2]. split.
    + simpl. rewrite IH1. f_equal.
      unfold member_uid, member_get in Hu. rewrite Hs in Hu. simpl in Hu.
      by injection Hu as <-.
    + constructor; [by eapply rating_vector_length|done].
Qed.

(** ** Which vector a line of the chart carries *)

Lemma has_uid_iff uid m : has_uid uid m = true <-> member_uid m = Ok uid.
Proof.
  unfold has_uid, member_uid, member_get.
  destruct (m !! "username") as [[| | | |s| |]|]; simpl; try done.
  rewrite String.eqb_eq. split; [by intros ->|by intros [= ->]].
Qed.

Lemma last_named_none uid ms :
  last_named uid ms = None <->
  Forall (fun m => member_uid m <> Ok uid) ms.
Proof.
  induction ms as [|m ms IH]; simpl; [by split|].
  rewrite Forall_cons, <- IH.
  destruct (last_named uid ms) as [l|]; [by split; [|intros [_ ?]]|].
  destruct (has_uid uid m) eqn:Hm.
  - apply has_uid_iff in Hm. by split; [|intros [? _]].
  - split; [|done]. intros _. split; [|done].
    intros Hu. apply has_uid_iff in Hu. congruence.
Qed.

(** [last_named uid ms] is a record of [ms] with the username [uid] that
    no record with that username follows. *)
Lemma last_named_spec uid ms m' :
  last_named uid ms = Some m' <->
  exists before after,
    ms = (before ++ m' :: after)%list /\
    member_uid m' = Ok uid /\
    Forall (fun m => member_uid m <> Ok uid) after.
Proof.
  split.
  - revert m'. induction ms as [|m ms IH]; intros m'; simpl; [done|].
    destruct (last_named uid ms) as [l|] eqn:Hl.
    + intros [= <-].
      destruct (IH l eq_refl) as (before & after & -> & Hu & Ha).
      by exists (m :: before), after.
    + destruct (has_uid uid m) eqn:Hm; [|done]. intros [= <-].
      exists [], ms. split; [done|].
      split; [by apply has_uid_iff|by apply last_named_none].
  - intros (before & after & -> & Hu & Ha).
    induction before as [|b before IH]; simpl.
    + rewrite (proj2 (last_named_none uid after) Ha).
      apply has_uid_iff in Hu. by rewrite Hu.
    + by rewrite IH.
Qed.

Lemma last_named_absent uid ms ids :
  str_names ms = Some ids -> uid ∉ ids -> last_named uid ms = None.
Proof.
  revert ids. induction ms as [|m ms IH]; intros ids Hn Hu; [done|].
  apply str_names_cons in Hn as (s & r & -> & Hs & Hr).
  apply not_elem_of_cons in Hu as [Hne Hu]. simpl.
  rewrite (IH _ Hr Hu). unfold has_uid. rewrite Hs.
  destruct (String.eqb_spec s uid); [by subst|done].
Qed.

(** When no username is listed twice, the last record with a username is
    the only one. *)
Lemma last_named_unique ms ids :
  str_names ms = Some ids -> NoDup ids ->
  Forall (fun m => forall uid, member_uid m = Ok uid ->
                               last_named uid ms = Some m) ms.
Proof.
  revert ids. induction ms as [|m ms IH]; intros ids Hn Hd; [constructor|].
  apply str_names_cons in Hn as (s & r & -> & Hs & Hr).
  apply NoDup_cons in Hd as [Hs' Hd]. constructor.
  - intros uid Hu. simpl.
    assert (uid = s) as ->.
    { unfold member_uid, member_get in Hu. rewrite Hs in Hu. simpl in Hu.
      by injection Hu as <-. }
    rewrite (last_named_absent _ _ _ Hr Hs').
    apply has_uid_iff in Hu. by rewrite Hu.
  - eapply Forall_impl; [exact (IH _ Hr Hd)|]. simpl.
    intros x Hx uid Hu. by rewrite (Hx _ Hu).
Qed.

Section LastVector.
Context `{Builtins}.

(** After [ratings] is filled, the entry of a username is the vector of
    the last record with that username. *)
Lemma fill_ratings_last ms (r0 r : gmap string (list Z)) :
  fill_ratings ms r0 = Ok r ->
  forall uid,
    match last_named uid ms with
    | Some m' => exists v, rating_vector m' = Ok v /\ r !! uid = Some v
    | None => r !! uid = r0 !! uid
    end.
Proof.
  revert r0. induction ms as [|m ms IH]; simpl; intros r0 Hf uid.
  - by injection Hf as <-.
  - destruct (member_uid m) as [u|e] eqn:Hu; simpl in Hf; [|done].
    destruct (rating_vector m) as [v|e] eqn:Hv; simpl in Hf; [|done].
    specialize (IH _ Hf uid).
    destruct (last_named uid ms) as [m'|]; [done|].
    destruct (has_uid uid m) eqn:Hm.
    + apply has_uid_iff in Hm. rewrite Hu in Hm. injection Hm as ->.
      exists v. split; [done|]. by rewrite IH, lookup_insert_eq.
    + rewrite IH. apply lookup_insert_ne. intros ->.
      apply has_uid_iff in Hu. congruence.
Qed.

Lemma chart_lines_carry_last_vector ms st st' :
  chart_stage ms st = (st', Done tt) ->
  exists new,
    lines st' = (lines st ++ new)%list /\
    Forall2 (fun m l =>
               member_uid m = Ok (fst l) /\
               exists m', last_named (fst l) ms = Some m' /\
                          rating_vector m' = Ok (snd l)) ms new.
Proof.
  unfold chart_stage. intros Hc.
  unfold pbind at 1 in Hc. simpl in Hc. unfold pbind at 1 in Hc.
  destruct (fill_ratings ms ∅) as [r|e] eqn:Hf; simpl in Hc; [|done].
  unfold pbind at 1 in Hc.
  match type of Hc with
  | context [plot_members ms r ?s] =>
      destruct (plot_members ms r s) as [st1 [[]|e|c]] eqn:Hp; [|done..]
  end.
  simpl in Hc. injection Hc as <-.
  apply plot_members_lines in Hp as (new & Hl & HF). simpl in *.
  exists new. split; [done|].
  eapply Forall2_impl; [exact HF|]. simpl.
  intros m [uid ys] [Hu Hr]. split; [done|]. simpl in *.
  pose proof (fill_ratings_last _ _ _ Hf uid) as Hlast.
  destruct (last_named uid ms) as [m'|].
  - destruct Hlast as (v & Hv & Hrv). exists m'. split; [done|]. congruence.
  - by rewrite Hr, lookup_empty in Hlast.
Qed.

Lemma lines_carry_own_vector (all ms : list member)
  (new : list (string * list Z)) :
  Forall (fun m => forall uid, member_uid m = Ok uid ->
                               last_named uid all = Some m) ms ->
  Forall2 (fun m l =>
             member_uid m = Ok (fst l) /\
             exists m', last_named (fst l) all = Some m' /\
                        rating_vector m' = Ok (snd l)) ms new ->
  Forall2 (fun m l => last_named (fst l) all = Some m /\
                      rating_vector m = Ok (snd l)) ms new.
Proof.
  intros Hun HF.
  induction HF as [|m l ms new (Hu & m' & Hm' & Hv) _ IH]; [constructor|].
  apply Forall_cons in Hun as [Hm Hun]. constructor; [|by apply IH].
  rewrite (Hm _ Hu) in Hm'. injection Hm' as <-. split; [by apply Hm|done].
Qed.

End LastVector.

Section ChartInput.
Context `{Builtins} (CLUB_NAME : string) (PLOT : bool)
  (web : nat -> string -> reply).

(** C6, as amended: what the chart is given for a record is the vector
    kept under the record's username, which is the vector of the last
    record of the table with that username, and so the record's own
    vector whenever no username is listed twice.  That vector has six
    values, in the fixed order of [rating_types]; for a record whose six
    charted ratings are integers or the empty string it has 800 in place
    of every empty string and the integer itself otherwise. *)
Theorem chart_line_is_last_vector_of_username :
  snd (run CLUB_NAME PLOT web) = Done tt ->
  rating_types = [ "chess_daily"; "chess_rapid"; "chess_blitz";
                   "chess_bullet"; "chess960_daily"; "tactics" ] /\
  exists final,
    report (fst (run CLUB_NAME PLOT web)) =
      Some {| header := headers; rows := map row_of final |} /\
    Forall2 (fun m l =>
               member_uid m = Ok (fst l) /\
               exists m',
                 last_named (fst l) final = Some m' /\
                 rating_vector m' = Ok (snd l) /\
                 length (snd l) = 6%nat /\
                 forall cells,
                   map (fun type => m' !! type) rating_types =
                     map (fun c => Some (cell_value c)) cells ->
                   snd l = map (default 800) cells)
      final (lines (fst (run CLUB_NAME PLOT web))) /\
    forall ids,
      str_names final = Some ids -> NoDup ids ->
      Forall2 (fun m l => last_named (fst l) final = Some m /\
                          rating_vector m = Ok (snd l))
        final (lines (fst (run CLUB_NAME PLOT web))).
Proof.
  split; [done|].
  destruct (run_shape CLUB_NAME PLOT web)
    as [(st3 & ms3 & ids & Hrun & Hids & _ & _ & _ & Hl & Hsh & _)
       |[_ [[e He]|He]]]; [|by rewrite He in *..].
  rewrite Hrun in *.
  destruct (output_stage PLOT ms3 st3) as [st' o] eqn:Ho.
  apply output_stage_facts in Ho as (_ & Hp & _ & Hend); [|done].
  simpl in *. subst o. destruct Hend as (_ & _ & st0 & Hl0 & Hc).
  apply chart_lines_carry_last_vector in Hc as (new & Hnew & HF).
  rewrite Hl0, Hl in Hnew. simpl in Hnew. rewrite Hnew.
  exists ms3. split; [done|]. split.
  - eapply Forall2_impl; [exact HF|]. simpl.
    intros m l (Hu & m' & Hm' & Hv). split; [done|].
    exists m'. split; [done|]. split; [done|]. split.
    + by rewrite (rating_vector_length _ _ Hv).
    + intros cells Hcells.
      destruct (rating_vector_cells m' cells Hcells) as (_ & _ & Hv').
      rewrite Hv in Hv'. by injection Hv'.
  - intros ids' Hids' Hd.
    by apply lines_carry_own_vector; [eapply last_named_unique|].
Qed.

End ChartInput.

(** C6 fails as stated: with [alice] listed twice and her daily rating
    moving from 1000 to 2000 between the two statistics requests, the two
    rows of the table hold 1000 and 2000, yet the line drawn for the first
    row carries 2000, the rating of the second row: not the vector of the
    first record, which begins with 1000. *)
Lemma first_listing_is_drawn_with_second_vector :
  report (fst (run (H := example_builtins) "mensa-argentina" true
                 web_rating_moves)) =
    Some {| header := headers;
            rows := map row_of [alice_rated 1000; alice_rated 2000] |} /\
  rating_vector (H := example_builtins) (alice_rated 1000)
    = Ok [1000; 800; 800; 800; 800; 800] /\
  lines (fst (run (H := example_builtins) "mensa-argentina" true
                web_rating_moves)) =
    [ ("alice", [2000; 800; 800; 800; 800; 800]);
      ("alice", [2000; 800; 800; 800; 800; 800]) ] /\
  (forall l,
     head (lines (fst (run (H := example_builtins) "mensa-argentina" true
                         web_rating_moves))) = Some l ->
     rating_vector (H := example_builtins) (alice_rated 1000) <> Ok (snd l)).
Proof.
  split; [vm_compute; reflexivity|]. split; [vm_compute; reflexivity|].
  split; [vm_compute; reflexivity|].
  intros l Hl. vm_compute in Hl. injection Hl as <-.
  vm_compute. discriminate.
Qed.

Lemma chart_line_is_last_vector_of_username_witness :
  snd (run (H := example_builtins) "mensa-argentina" true web_rating_moves)
    = Done tt /\
  exists final,
    report (fst (run (H := example_builtins) "mensa-argentina" true
                   web_rating_moves)) =
      Some {| header := headers; rows := map row_of final |} /\
    Forall2 (fun m l =>
               member_uid m = Ok (fst l) /\
               exists m',
                 last_named (fst l) final = Some m' /\
                 rating_vector (H := example_builtins) m' = Ok (snd l) /\
                 length (snd l) = 6%nat /\
                 forall cells,
                   map (fun type => m' !! type) rating_types =
                     map (fun c => Some (cell_value c)) cells ->
                   snd l = map (default 800) cells)
      final (lines (fst (run (H := example_builtins) "mensa-argentina" true
                           web_rating_moves))).
Proof.
  split; [vm_compute; reflexivity|].
  destruct (chart_line_is_last_vector_of_username (H := example_builtins)
              "mensa-argentina" true web_rating_moves)
    as (_ & final & Hrep & HF & _); [vm_compute; reflexivity|].
  exists final. split; [exact Hrep|exact HF].
Defined.

Section Endings.
Context `{Builtins} (CLUB_NAME : string) (PLOT : bool)
  (web : nat -> string -> reply).

(** A run that writes its table has made exactly one request for the
    roster, then one profile request per row, then one statistics request
    per row, each group in row order: no statistics is asked for before
    the last profile has arrived. *)
Theorem requests_go_stage_by_stage (t : table) :
  report (fst (run CLUB_NAME PLOT web)) = Some t ->
  exists ids,
    map (fun row => head row) (rows t) =
      map (fun s => Some (Some (VStr s))) ids /\
    requests (fst (run CLUB_NAME PLOT web)) =
      roster_url CLUB_NAME ::
      (map (player_page "") ids ++ map (player_page "/stats") ids)%list.
Proof.
  intros Ht.
  destruct (run_shape CLUB_NAME PLOT web)
    as [(st3 & ms3 & ids & Hrun & Hids & Hreq & _ & _ & _ & Hsh & _)
       |[(Hq & _) _]]; [|by rewrite Hq in Ht].
  rewrite Hrun in Ht |- *.
  destruct (output_stage PLOT ms3 st3) as [st' o] eqn:Ho.
  apply output_stage_facts in Ho as (Hr & Hp & _); [|done]. simpl in *.
  rewrite Hp in Ht. injection Ht as <-. exists ids. simpl.
  split; [by apply first_column|by rewrite Hr].
Qed.

(** What a run that writes its table has printed: the five progress
    messages, with the number of rows as the number of members, then the
    message of the output, then the message of the chart when [PLOT] is
    on, and never the error message. *)
Theorem progress_messages_of_a_written_table (t : table) :
  report (fst (run CLUB_NAME PLOT web)) = Some t ->
  stdout (fst (run CLUB_NAME PLOT web)) =
    (progress CLUB_NAME (length (rows t)) ++
     "Writing output file" :: if PLOT then ["Drawing chart..."] else [])%list.
Proof.
  intros Ht.
  destruct (run_shape CLUB_NAME PLOT web)
    as [(st3 & ms3 & ids & Hrun & Hids & _ & Hout & _ & _ & Hsh & _)
       |[(Hq & _) _]]; [|by rewrite Hq in Ht].
  rewrite Hrun in Ht |- *.
  destruct (output_stage PLOT ms3 st3) as [st' o] eqn:Ho.
  apply output_stage_facts in Ho as (_ & Hp & Hso & _); [|done]. simpl in *.
  rewrite Hp in Ht. injection Ht as <-. simpl.
  by rewrite Hso, Hout, length_map, (str_names_length _ _ Hids).
Qed.

(** The table has the thirteen headers, and every row has a value in each
    of the thirteen columns: no cell is left undefined. *)
Theorem written_rows_are_complete (t : table) :
  report (fst (run CLUB_NAME PLOT web)) = Some t ->
  header t = headers /\
  Forall (fun row => length row = length headers /\ Forall is_Some row)
    (rows t).
Proof.
  intros Ht.
  destruct (run_shape CLUB_NAME PLOT web)
    as [(st3 & ms3 & ids & Hrun & _ & _ & _ & _ & _ & Hsh & Hc)
       |[(Hq & _) _]]; [|by rewrite Hq in Ht].
  rewrite Hrun in Ht.
  destruct (output_stage PLOT ms3 st3) as [st' o] eqn:Ho.
  apply output_stage_facts in Ho as (_ & Hp & _); [|done]. simpl in *.
  rewrite Hp in Ht. injection Ht as <-. simpl.
  split; [done|by apply rows_complete].
Qed.

(** The exit status is 0 exactly when the table was written and either
    [PLOT] is off or the chart was shown. *)
Theorem exit_status_zero_iff :
  exit_status (snd (run CLUB_NAME PLOT web)) = 0 <->
  is_Some (report (fst (run CLUB_NAME PLOT web))) /\
  (PLOT = false \/ shown (fst (run CLUB_NAME PLOT web)) = true).
Proof.
  destruct (run_shape CLUB_NAME PLOT web)
    as [(st3 & ms3 & ids & Hrun & _ & _ & _ & _ & _ & Hsh & _)
       |[(Hq & _) Hend]].
  - rewrite Hrun.
    destruct (output_stage PLOT ms3 st3) as [st' o] eqn:Ho.
    apply output_stage_facts in Ho as (_ & Hp & _ & Hend); [|done].
    simpl in *. rewrite Hp.
    destruct o as [[]|e|c]; simpl.
    + destruct Hend as (HP & Hs' & _). split; [|done].
      intros _. split; [by eexists|by right].
    + destruct Hend as (-> & Hs'). split; [done|].
      intros [_ [?|?]]; congruence.
    + destruct Hend as (-> & -> & _). split; [|done].
      intros _. split; [by eexists|by left].
  - rewrite Hq. split.
    + destruct Hend as [[e ->]| ->]; done.
    + by intros [[? ?] _].
Qed.

(** A run that ends without exiting has shown the chart, with one line per
    row of the table, labelled with the usernames in row order, each of
    six values. *)
Theorem chart_has_a_line_per_row :
  snd (run CLUB_NAME PLOT web) = Done tt ->
  PLOT = true /\
  shown (fst (run CLUB_NAME PLOT web)) = true /\
  exists t ids,
    report (fst (run CLUB_NAME PLOT web)) = Some t /\
    map (fun row => head row) (rows t) =
      map (fun s => Some (Some (VStr s))) ids /\
    map fst (lines (fst (run CLUB_NAME PLOT web))) = ids /\
    Forall (fun l => length (snd l) = length rating_names)
      (lines (fst (run CLUB_NAME PLOT web))).
Proof.
  destruct (run_shape CLUB_NAME PLOT web)
    as [(st3 & ms3 & ids & Hrun & Hids & _ & _ & _ & Hl & Hsh & _)
       |[_ [[e He]|He]]]; [|by rewrite He..].
  rewrite Hrun.
  destruct (output_stage PLOT ms3 st3) as [st' o] eqn:Ho.
  apply output_stage_facts in Ho as (_ & Hp & _ & Hend); [|done].
  simpl. intros ->. destruct Hend as (HP & Hs' & st0 & Hl0 & Hc).
  split; [done|]. split; [done|].
  apply chart_lines_are_rating_vectors in Hc as (new & Hnew & HF).
  rewrite Hl0, Hl in Hnew. simpl in Hnew.
  destruct (chart_labels _ _ _ Hids HF) as [Hlab Hlen].
  eexists _, ids. split; [exact Hp|]. simpl.
  split; [by apply first_column|]. by rewrite Hnew.
Qed.

End Endings.

(** ** The error message *)

Lemma voices_print s :
  s <> access_error -> triple silent (print s) (@voiced unit).
Proof.
  intros Hs st Hst. simpl. unfold silent. simpl.
  rewrite in_app_iff. simpl. intuition.
Qed.

Lemma voices_lift {A} (r : result A) : triple silent (lift r) (@voiced A).
Proof. intros st Hst. by destruct r. Qed.

Lemma voices_bind {A B} (p : prog A) (k : A -> prog B) :
  triple silent p (@voiced A) ->
  (forall a, triple silent (k a) (@voiced B)) ->
  triple silent (pbind p k) (@voiced B).
Proof.
  intros Hp Hk. eapply triple_bind; [exact Hp| | |]; simpl; [|done..].
  intros a. eapply triple_weaken; [apply Hk| |]; done.
Qed.

Lemma voices_for_each f ms :
  (forall m, triple silent (f m) (@voiced member)) ->
  triple silent (for_each f ms) (@voiced (list member)).
Proof.
  intros Hf. induction ms as [|m ms IH]; simpl; [apply voices_lift|].
  apply voices_bind; [apply Hf|]. intros m'.
  apply voices_bind; [apply IH|]. intros r. apply voices_lift.
Qed.

Section Messages.
Context `{Builtins} (CLUB_NAME : string) (PLOT : bool)
  (web : nat -> string -> reply).

Lemma voices_fetch url :
  triple silent (fetch web url) (@voiced (option value)).
Proof.
  intros st Hst. unfold fetch.
  destruct url as [u|e]; [destruct (web (length (requests st)) u)|];
    simpl; try done; left; (split; [done|apply last_snoc]).
Qed.

Lemma voices_member_step suffix (fields : member -> value -> result member) m :
  triple silent
    (let* source := fetch web (player_url m suffix) in
     let* player_data := lift (json_loads source) in
     lift (fields m player_data)) (@voiced member).
Proof.
  apply voices_bind; [apply voices_fetch|]. intros source.
  apply voices_bind; [apply voices_lift|]. intros pd. apply voices_lift.
Qed.

Lemma voices_loading :
  triple silent
    (let* members := roster_stage CLUB_NAME web in
     let* members := profile_stage web members in
     stats_stage web members) (@voiced (list member)).
Proof.
  apply voices_bind.
  { apply voices_bind; [by apply voices_print|]. intros _.
    apply voices_bind; [apply voices_fetch|]. intros source.
    apply voices_bind; [apply voices_lift|]. intros cm.
    apply voices_bind; [apply voices_lift|]. intros ms.
    apply voices_bind; [by apply voices_print|]. intros _.
    apply voices_bind; [by apply voices_print|]. intros _.
    apply voices_lift. }
  intros ms1. apply voices_bind.
  { apply voices_bind; [by apply voices_print|]. intros _.
    apply voices_for_each. intros m.
    apply (voices_member_step "" profile_fields). }
  intros ms2.
  apply voices_bind; [by apply voices_print|]. intros _.
  apply voices_for_each. intros m.
  apply (voices_member_step "/stats" stats_fields).
Qed.

Lemma voices_output_stage ms :
  triple silent (output_stage PLOT ms) (@voiced unit).
Proof.
  intros st Hst.
  destruct (output_stage PLOT ms st) as [st' o] eqn:Ho. simpl.
  unfold output_stage, pbind at 1 2 in Ho. simpl in Ho.
  assert (forall s l, s <> access_error ->
            ~ In access_error l -> ~ In access_error (l ++ [s])) as Hadd.
  { intros s l Hs Hl. rewrite in_app_iff. simpl. intuition. }
  destruct PLOT; simpl in Ho.
  - apply chart_stage_facts in Ho as (_ & _ & Hout & Hend). simpl in Hout.
    assert (silent st') as Hs'.
    { unfold silent. rewrite Hout. apply Hadd; [done|]. by apply Hadd. }
    by destruct o.
  - injection Ho as <- <-. simpl. right. split; [done|].
    unfold silent. simpl. by apply Hadd.
Qed.

Lemma script_regrouped st :
  script CLUB_NAME PLOT web st =
  pbind (let* members := roster_stage CLUB_NAME web in
         let* members := profile_stage web members in
         stats_stage web members)
        (output_stage PLOT) st.
Proof.
  rewrite script_stages. unfold pbind.
  destruct (roster_stage CLUB_NAME web st) as [s1 [a|e|c]]; [|done..].
  by destruct (profile_stage web a s1) as [s2 [b|e|c]].
Qed.

Lemma script_voiced :
  voiced (fst (run CLUB_NAME PLOT web)) (snd (run CLUB_NAME PLOT web)).
Proof.
  unfold run. rewrite script_regrouped.
  apply (voices_bind _ (output_stage PLOT) voices_loading).
  - intros ms. apply voices_output_stage.
  - by intros [].
Qed.

(** The error message is printed exactly by the runs that exit with
    status 1, and it is the last thing they print; a run that ends with an
    exception nobody caught does not print it. *)
Theorem error_message_iff_exit_1 :
  (snd (run CLUB_NAME PLOT web) = Exit 1 <->
   In access_error (stdout (fst (run CLUB_NAME PLOT web)))) /\
  (snd (run CLUB_NAME PLOT web) = Exit 1 ->
   last (stdout (fst (run CLUB_NAME PLOT web))) = Some access_error).
Proof.
  pose proof script_voiced as Hv.
  destruct (snd (run CLUB_NAME PLOT web)) as [[]|e|c]; simpl in Hv.
  - split; [split|]; done.
  - split; [split|]; done.
  - destruct Hv as [[-> Hl]|[-> Hs]].
    + split; [|done]. split; [|done]. intros _.
      apply list_elem_of_In. by eapply last_Some_elem_of.
    + split; [split|]; done.
Qed.

End Messages.

(** ** Replies that are not JSON *)

Section Undecodable.
Context `{Builtins} (CLUB_NAME : string) (PLOT : bool)
  (web : nat -> string -> reply).

Lemma decoded_only_last st : decoded web st -> only_last_garbled web st.
Proof. intros Hd n url Hn Hu. by destruct (Hd n url Hn). Qed.

Lemma parses_print s : triple (readable web) (print s) (@parsing web unit).
Proof. by intros st [Hd Hq]. Qed.

Lemma parses_lift {A} (r : result A) :
  triple (readable web) (lift r) (@parsing web A).
Proof.
  intros st [Hd Hq]. destruct r as [a|e]; simpl; [done|].
  split; [done|]. destruct e; try done. by apply decoded_only_last.
Qed.

Lemma parses_bind {A B} (p : prog A) (k : A -> prog B) :
  triple (readable web) p (@parsing web A) ->
  (forall a, triple (readable web) (k a) (@parsing web B)) ->
  triple (readable web) (pbind p k) (@parsing web B).
Proof.
  intros Hp Hk. eapply triple_bind; [exact Hp| | |]; simpl; [|done..].
  intros a. eapply triple_weaken; [apply Hk| |]; [|done].
  by intros st [Hq Hd].
Qed.

Lemma parses_fetch_loads {B} url (k : value -> prog B) :
  (forall pd, triple (readable web) (k pd) (@parsing web B)) ->
  triple (readable web)
    (let* source := fetch web url in
     let* player_data := lift (json_loads source) in
     k player_data) (@parsing web B).
Proof.
  intros Hk st [Hd Hq]. unfold pbind, fetch.
  destruct url as [u|e]; [|by split].
  assert (forall r, r <> Garbage ->
            web (length (requests st)) u = r ->
            decoded web (log_request u st)) as Hdec.
  { intros r Hr Hw n url Hn. simpl in Hn.
    apply lookup_app_Some in Hn as [Hn|[Hge Hn]]; [by apply Hd|].
    apply list_lookup_singleton_Some in Hn as [Hn <-].
    replace n with (length (requests st)) by lia. by rewrite Hw. }
  destruct (web (length (requests st)) u) as [| |v] eqn:Hw; simpl.
  - split; [done|]. by apply (Hdec Unreachable).
  - split; [done|].
    intros n url Hn Hu. simpl in *. rewrite length_app. simpl.
    apply lookup_app_Some in Hn as [Hn|[Hge Hn]]; [by destruct (Hd n url Hn)|].
    apply list_lookup_singleton_Some in Hn as [Hn <-]. lia.
  - apply Hk. split; [by apply (Hdec (Doc v))|done].
Qed.

Lemma parses_for_each f ms :
  (forall m, triple (readable web) (f m) (@parsing web member)) ->
  triple (readable web) (for_each f ms) (@parsing web (list member)).
Proof.
  intros Hf. induction ms as [|m ms IH]; simpl; [apply parses_lift|].
  apply parses_bind; [apply Hf|]. intros m'.
  apply parses_bind; [apply IH|]. intros r. apply parses_lift.
Qed.

Lemma parses_loading :
  triple (readable web)
    (let* members := roster_stage CLUB_NAME web in
     let* members := profile_stage web members in
     stats_stage web members) (@parsing web (list member)).
Proof.
  apply parses_bind.
  { apply parses_bind; [apply parses_print|]. intros _.
    apply parses_fetch_loads. intros cm.
    apply parses_bind; [apply parses_lift|]. intros ms.
    apply parses_bind; [apply parses_print|]. intros _.
    apply parses_bind; [apply parses_print|]. intros _.
    apply parses_lift. }
  intros ms1. apply parses_bind.
  { apply parses_bind; [apply parses_print|]. intros _.
    apply parses_for_each. intros m.
    apply parses_fetch_loads. intros pd. apply parses_lift. }
  intros ms2.
  apply parses_bind; [apply parses_print|]. intros _.
  apply parses_for_each. intros m.
  apply parses_fetch_loads. intros pd. apply parses_lift.
Qed.

(** How the script ends, as to replies that are not JSON. *)
Lemma script_parsed :
  decoded web (fst (run CLUB_NAME PLOT web)) \/
  (snd (run CLUB_NAME PLOT web) = Abort JSONDecodeError /\
   quiet (fst (run CLUB_NAME PLOT web)) /\
   only_last_garbled web (fst (run CLUB_NAME PLOT web))).
Proof.
  unfold run. rewrite script_regrouped.
  assert (readable web start) as Hstart by (split; [intros ? ? ?|]; done).
  pose proof (parses_loading start Hstart) as Hl.
  destruct ((let* members := roster_stage CLUB_NAME web in
             let* members := profile_stage web members in
             stats_stage web members) start) as [s3 [ms|e|c]] eqn:HP;
    simpl in Hl.
  - rewrite (pbind_done _ _ _ _ _ HP). left.
    intros n url. rewrite keeps_requests_output_stage. by apply Hl.
  - rewrite (pbind_abort _ _ _ _ _ HP). simpl. destruct Hl as [Hq Hd].
    destruct e; try (by left). right. split; [done|]. by split.
  - rewrite (pbind_exit _ _ _ _ _ HP). simpl. left. by apply Hl.
Qed.

(** When a request of the run gets bytes that are not JSON, the run ends
    there with [JSONDecodeError] uncaught: that request is the last one
    made, the error message is not printed, no table is written and
    nothing is drawn. *)
Theorem undecodable_reply_is_uncaught (n : nat) (url : string) :
  requests (fst (run CLUB_NAME PLOT web)) !! n = Some url ->
  web n url = Garbage ->
  snd (run CLUB_NAME PLOT web) = Abort JSONDecodeError /\
  S n = length (requests (fst (run CLUB_NAME PLOT web))) /\
  ~ In access_error (stdout (fst (run CLUB_NAME PLOT web))) /\
  report (fst (run CLUB_NAME PLOT web)) = None /\
  lines (fst (run CLUB_NAME PLOT web)) = [] /\
  shown (fst (run CLUB_NAME PLOT web)) = false.
Proof.
  intros Hn Hu.
  destruct script_parsed as [Hd|(Hr & (Hq1 & Hq2 & Hq3) & Hl)].
  - by destruct (Hd n url Hn).
  - split; [done|]. split; [by apply (Hl n url)|].
    split; [|done].
    pose proof (script_voiced CLUB_NAME PLOT web) as Hv.
    by rewrite Hr in Hv.
Qed.

End Undecodable.

(** ** Rosters that are not as expected *)

Lemma player_url_not_str m suffix :
  ~ has_str_name m -> forall u, player_url m suffix <> Ok u.
Proof.
  intros Hm u Hu. apply player_url_str in Hu as (s & Hs & _).
  apply Hm. by exists s.
Qed.

Section Unexpected.
Context `{Builtins} (CLUB_NAME : string) (PLOT : bool)
  (web : nat -> string -> reply).

Lemma roster_stage_doc doc ms st :
  web (length (requests st)) (roster_url CLUB_NAME) = Doc doc ->
  load_members doc = Ok ms ->
  exists st1,
    roster_stage CLUB_NAME web st = (st1, Done ms) /\
    requests st1 = (requests st ++ [roster_url CLUB_NAME])%list.
Proof.
  intros Hw Hl. unfold roster_stage, pbind, fetch. simpl.
  rewrite Hw. simpl. rewrite Hl. simpl. by eexists.
Qed.

(** A member whose username is not a [str] is not asked for: building the
    address raises inside the [try], and the step prints the error message
    and exits with status 1 without a request. *)
Lemma member_step_not_str m st :
  ~ has_str_name m ->
  profile_member web m st = (fst (print access_error st), Exit 1) /\
  stats_member web m st = (fst (print access_error st), Exit 1).
Proof.
  intros Hm. unfold profile_member, stats_member, pbind, fetch.
  pose proof (player_url_not_str m "" Hm) as H1.
  pose proof (player_url_not_str m "/stats" Hm) as H2.
  destruct (player_url m "") as [u1|e1]; [by destruct (H1 u1)|].
  destruct (player_url m "/stats") as [u2|e2]; [by destruct (H2 u2)|].
  done.
Qed.

(** When the first member of the sorted list has a username that is not a
    [str], the run exits with status 1 and the error message although the
    only request it made, for the roster, was answered. *)
Theorem username_not_str_exits_unasked doc m ms :
  web 0 (roster_url CLUB_NAME) = Doc doc ->
  load_members doc = Ok (m :: ms) ->
  ~ has_str_name m ->
  snd (run CLUB_NAME PLOT web) = Exit 1 /\
  requests (fst (run CLUB_NAME PLOT web)) = [roster_url CLUB_NAME] /\
  last (stdout (fst (run CLUB_NAME PLOT web))) = Some access_error /\
  report (fst (run CLUB_NAME PLOT web)) = None.
Proof.
  intros Hw Hl Hm. unfold run. rewrite script_stages.
  destruct (roster_stage_doc doc (m :: ms) start Hw Hl) as (st1 & H1 & Hr1).
  pose proof (keeps_report_roster_stage CLUB_NAME web start) as Hk.
  rewrite H1 in Hk. simpl in Hk.
  rewrite (pbind_done _ _ _ _ _ H1).
  assert (forall st, profile_stage web (m :: ms) st =
                     (fst (print access_error
                             (fst (print
                                "Getting Players information from web site..."
                                st))), Exit 1)) as H2.
  { intros st. unfold profile_stage, pbind at 1. simpl. unfold pbind at 1.
    by rewrite (proj1 (member_step_not_str m _ Hm)). }
  rewrite (pbind_exit _ _ _ _ _ (H2 st1)). simpl.
  split; [done|]. split; [done|]. split; [apply last_snoc|done].
Qed.

Lemma run_roster_raises doc e :
  web 0 (roster_url CLUB_NAME) = Doc doc ->
  load_members doc = Raise e ->
  run CLUB_NAME PLOT web =
  ({| requests := [roster_url CLUB_NAME];
      stdout := ["Getting list of club members from web site..."];
      report := None; lines := []; shown := false |}, Abort e).
Proof.
  intros Hw Hl. unfold run, script, roster_stage, pbind, fetch. simpl.
  rewrite Hw. simpl. by rewrite Hl.
Qed.

(** A roster of lists of objects in which some object has no [username]
    ends the run with [KeyError] uncaught, right after the roster arrived:
    nothing more is printed, asked for or written. *)
Theorem unnamed_object_is_uncaught (d : list (string * value)) :
  web 0 (roster_url CLUB_NAME) = Doc (VDict d) ->
  lists_objects d ->
  some_object_unnamed d ->
  snd (run CLUB_NAME PLOT web) = Abort KeyError /\
  requests (fst (run CLUB_NAME PLOT web)) = [roster_url CLUB_NAME] /\
  stdout (fst (run CLUB_NAME PLOT web)) =
    ["Getting list of club members from web site..."] /\
  report (fst (run CLUB_NAME PLOT web)) = None.
Proof.
  intros Hw Hlo Hun.
  assert (load_members (VDict d) = Raise KeyError) as Hl.
  { unfold load_members. simpl. by rewrite (roster_unnamed_raises d). }
  by rewrite (run_roster_raises _ _ Hw Hl).
Qed.

End Unexpected.

(** ** When the chart is drawn *)

Lemma map_result_Ok_iff {A B} (f : A -> result B) l :
  (exists r, map_result f l = Ok r) <-> Forall (fun x => exists y, f x = Ok y) l.
Proof.
  induction l as [|x l IH]; simpl.
  - split; [constructor|by eexists].
  - split.
    + intros [r Hr]. destruct (f x) as [y|e] eqn:Hx; simpl in Hr; [|done].
      destruct (map_result f l) as [ys|e]; simpl in Hr; [|done].
      constructor; [by eexists|]. apply IH. by eexists.
    + intros HF. inversion HF as [|? ? [y Hy] HF']; subst.
      apply IH in HF' as [ys Hys]. rewrite Hy, Hys. by eexists.
Qed.

Section Drawn.
Context `{Builtins} (CLUB_NAME : string) (PLOT : bool)
  (web : nat -> string -> reply).

Lemma chart_value_ok_iff m type :
  (exists n, chart_value m type = Ok n) <-> cell_converts (m !! type).
Proof.
  unfold chart_value, member_get, cell_converts.
  destruct (m !! type) as [v|]; simpl; [|split; [by intros [? ?]|done]].
  destruct (py_ne_empty v); split.
  - intros Hn. by right.
  - by intros [?|?].
  - by left.
  - intros _. by eexists.
Qed.

Lemma rating_vector_ok_iff m :
  (exists v, rating_vector m = Ok v) <-> row_charts (row_of m).
Proof.
  unfold rating_vector, row_charts. rewrite map_result_Ok_iff.
  change (take 6 (drop 3 (row_of m)))
    with (map (fun type => m !! type) rating_types).
  rewrite Forall_map. apply Forall_iff. intros type.
  apply chart_value_ok_iff.
Qed.

Lemma member_uid_str m : has_str_name m -> exists uid, member_uid m = Ok uid.
Proof.
  intros [s Hs]. exists s. unfold member_uid, member_get. by rewrite Hs.
Qed.

Lemma fill_ratings_ok_iff ms (r0 : gmap string (list Z)) :
  Forall has_str_name ms ->
  (exists r, fill_ratings ms r0 = Ok r) <->
  Forall (fun m => exists v, rating_vector m = Ok v) ms.
Proof.
  intros Hn. revert r0. induction Hn as [|m ms Hm _ IH]; intros r0; simpl.
  - split; [constructor|by eexists].
  - destruct (member_uid_str m Hm) as [uid ->]. simpl. split.
    + intros [r Hr].
      destruct (rating_vector m) as [v|e] eqn:Hv; simpl in Hr; [|done].
      constructor; [by exists v|].
      apply (IH (<[uid:=v]> r0)). by exists r.
    + intros HF. inversion HF as [|? ? [v Hv] HF']; subst.
      rewrite Hv. simpl. by apply IH.
Qed.

Lemma fill_ratings_covers ms (r0 r : gmap string (list Z)) :
  fill_ratings ms r0 = Ok r ->
  (forall uid : string, is_Some (r0 !! uid) -> is_Some (r !! uid)) /\
  Forall (fun m => exists uid : string,
                     member_uid m = Ok uid /\ is_Some (r !! uid)) ms.
Proof.
  revert r0. induction ms as [|m ms IH]; simpl; intros r0 Hf.
  - injection Hf as <-. split; [done|constructor].
  - destruct (member_uid m) as [uid|e] eqn:Hu; simpl in Hf; [|done].
    destruct (rating_vector m) as [v|e]; simpl in Hf; [|done].
    destruct (IH _ Hf) as [Hkeep Hall]. split.
    + intros k Hk. apply Hkeep.
      destruct (decide (uid = k)) as [->|Hne];
        [by rewrite lookup_insert_eq|by rewrite lookup_insert_ne].
    + constructor; [|done]. exists uid. split; [done|].
      apply Hkeep. by rewrite lookup_insert_eq.
Qed.

Lemma plot_members_done ms (r : gmap string (list Z)) st :
  Forall (fun m => exists uid : string,
                     member_uid m = Ok uid /\ is_Some (r !! uid)) ms ->
  exists st', plot_members ms r st = (st', Done tt).
Proof.
  intros HF. revert st.
  induction HF as [|m ms (uid & Hu & [ys Hy]) _ IH]; intros st; simpl.
  - by eexists.
  - unfold pbind at 1. rewrite Hu. simpl. unfold pbind at 1. rewrite Hy.
    simpl. unfold pbind at 1. simpl. apply IH.
Qed.

Lemma chart_stage_done_iff ms st :
  Forall has_str_name ms ->
  (snd (chart_stage ms st) = Done tt <->
   Forall (fun m => exists v, rating_vector m = Ok v) ms) /\
  (snd (chart_stage ms st) <> Done tt ->
   lines (fst (chart_stage ms st)) = lines st).
Proof.
  intros Hn. rewrite <- (fill_ratings_ok_iff ms ∅ Hn).
  destruct (chart_stage ms st) as [st1 o] eqn:Hc. simpl.
  unfold chart_stage, pbind in Hc. simpl in Hc.
  destruct (fill_ratings ms ∅) as [r|e] eqn:Hf; simpl in Hc.
  - apply fill_ratings_covers in Hf as [_ Hall].
    match type of Hc with
    | context [plot_members ms r ?s] =>
        destruct (plot_members_done ms r s Hall) as [st' Hp]
    end.
    rewrite Hp in Hc. simpl in Hc. injection Hc as <- <-.
    split; [|done]. split; [by eexists|done].
  - injection Hc as <- <-. split; [|done].
    split; [done|by intros [? ?]].
Qed.

(** With [PLOT] on, a run that wrote its table goes on to show the chart
    exactly when every charted cell of every row is an empty string or a
    value [int] accepts; otherwise it stops on the first cell that is not,
    with the table written and no line drawn. *)
Theorem chart_is_drawn_iff_cells_convert (t : table) :
  report (fst (run CLUB_NAME PLOT web)) = Some t ->
  PLOT = true ->
  (snd (run CLUB_NAME PLOT web) = Done tt <-> Forall row_charts (rows t)) /\
  (snd (run CLUB_NAME PLOT web) <> Done tt ->
   (exists e, snd (run CLUB_NAME PLOT web) = Abort e) /\
   lines (fst (run CLUB_NAME PLOT web)) = [] /\
   shown (fst (run CLUB_NAME PLOT web)) = false).
Proof.
  intros Ht HP.
  destruct (run_shape CLUB_NAME PLOT web)
    as [(st3 & ms3 & ids & Hrun & Hids & _ & _ & _ & Hl & Hsh & _)
       |[(Hq & _) _]]; [|by rewrite Hq in Ht].
  rewrite Hrun in Ht |- *.
  pose proof (str_names_Forall _ _ Hids) as Hn.
  destruct (output_stage PLOT ms3 st3) as [st' o] eqn:Ho.
  pose proof (output_stage_facts _ _ _ _ _ Ho Hsh) as (_ & Hp & _ & Hend).
  simpl in *. rewrite Hp in Ht. injection Ht as <-. simpl.
  subst PLOT. unfold output_stage, pbind at 1 2 in Ho. simpl in Ho.
  match type of Ho with
  | chart_stage ms3 ?s = _ =>
      destruct (chart_stage_done_iff ms3 s Hn) as [Hiff Hlines]
  end.
  rewrite Ho in Hiff, Hlines. simpl in Hiff, Hlines.
  split.
  - rewrite Hiff, Forall_map. apply Forall_iff. intros m.
    apply rating_vector_ok_iff.
  - intros Hnd. specialize (Hlines Hnd).
    destruct o as [[]|e|c]; [done| |by destruct Hend as (_ & [=] & _)].
    destruct Hend as [_ Hs']. split; [by eexists|]. by rewrite Hlines.
Qed.

End Drawn.

(** ** The further properties on examples *)

Lemma stats_fields_is_union_witness :
  exists stored,
    stats_fields ∅ (VDict (blitz_document 1000)) = Ok stored /\
    dom stored = list_to_set stats_keys /\
    stats_fields charted_record (VDict (blitz_document 1000)) =
      Ok (stored ∪ charted_record).
Proof.
  destruct (stats_fields_is_union charted_record (VDict (blitz_document 1000)))
    as [Hu Hd].
  destruct (stats_fields ∅ (VDict (blitz_document 1000))) as [stored|e] eqn:E;
    [|vm_compute in E; discriminate].
  exists stored. split; [reflexivity|]. split; [by apply Hd|exact Hu].
Defined.

Lemma profile_fields_is_union_witness :
  exists stored,
    profile_fields ∅ (VDict [("name", VStr "A. N. Other")]) = Ok stored /\
    dom stored = list_to_set profile_keys /\
    profile_fields charted_record (VDict [("name", VStr "A. N. Other")]) =
      Ok (stored ∪ charted_record).
Proof.
  destruct (profile_fields_is_union charted_record
              (VDict [("name", VStr "A. N. Other")])) as [Hu Hd].
  destruct (profile_fields ∅ (VDict [("name", VStr "A. N. Other")]))
    as [stored|e] eqn:E; [|vm_compute in E; discriminate].
  exists stored. split; [reflexivity|]. split; [by apply Hd|exact Hu].
Defined.

Lemma enrichments_commute_witness :
  exists m1 m2,
    (let! r := profile_fields (id_record "ann")
                 (VDict [("name", VStr "A. N. Other")]) in
     stats_fields r (VDict (blitz_document 1000))) = Ok m1 /\
    (let! r := stats_fields (id_record "ann") (VDict (blitz_document 1000)) in
     profile_fields r (VDict [("name", VStr "A. N. Other")])) = Ok m2 /\
    m1 = m2.
Proof.
  eexists _, _. split; [reflexivity|]. split; [reflexivity|].
  apply (enrichments_commute (id_record "ann") _ _
           (VDict [("name", VStr "A. N. Other")])
           (VDict (blitz_document 1000))); reflexivity.
Defined.

Lemma fide_is_never_zero_witness :
  exists m',
    stats_fields (id_record "ann") (VDict [("fide", VInt 0)]) = Ok m' /\
    exists v, m' !! "fide" = Some v /\ py_eq_zero v = false.
Proof.
  eexists. split; [reflexivity|].
  apply (fide_is_never_zero (id_record "ann") _ (VDict [("fide", VInt 0)])).
  reflexivity.
Defined.

Lemma present_path_is_stored_witness :
  In ("chess_blitz", ("last", "rating")) nested_fields /\
  get_path (VDict (blitz_document 1000)) "chess_blitz" "last" "rating"
    = Ok (VInt 900) /\
  exists m',
    stats_fields (id_record "ann") (VDict (blitz_document 1000)) = Ok m' /\
    m' !! "chess_blitz" = Some (VInt 900).
Proof.
  assert (In ("chess_blitz", ("last", "rating")) nested_fields) as Hin
    by (simpl; tauto).
  split; [exact Hin|]. split; [reflexivity|].
  eexists. split; [reflexivity|].
  apply (present_path_is_stored "chess_blitz" "last" "rating"
           (id_record "ann") _ (VDict (blitz_document 1000)) (VInt 900) Hin);
    reflexivity.
Defined.

Lemma bucket_gives_members_only_as_list_witness :
  (forall l, VStr "ab" <> VList l) /\
  bucket_members (VStr "ab") = Raise TypeError.
Proof.
  assert (forall l, VStr "ab" <> VList l) as Hl by (intros l; discriminate).
  split; [exact Hl|].
  destruct (bucket_gives_members_only_as_list (VStr "ab")) as (_ & Hother & _).
  exact (Hother Hl).
Defined.

Lemma loader_records_hold_username_only_witness :
  exists ms,
    load_members (H := example_builtins) (VDict roster_twice) = Ok ms /\
    Forall username_only ms.
Proof.
  eexists. split; [vm_compute; reflexivity|].
  apply (loader_records_hold_username_only (H := example_builtins)
           (VDict roster_twice)).
  vm_compute. reflexivity.
Defined.

Lemma requests_go_stage_by_stage_witness :
  exists t,
    report (fst (run (H := example_builtins) "mensa-argentina" true
                   web_empty_documents)) = Some t /\
    exists ids,
      map (fun row => head row) (rows t) =
        map (fun s => Some (Some (VStr s))) ids /\
      requests (fst (run (H := example_builtins) "mensa-argentina" true
                       web_empty_documents)) =
        roster_url "mensa-argentina" ::
        (map (player_page "") ids ++ map (player_page "/stats") ids)%list.
Proof.
  eexists. split; [vm_compute; reflexivity|].
  apply (requests_go_stage_by_stage (H := example_builtins)
           "mensa-argentina" true web_empty_documents).
  vm_compute. reflexivity.
Defined.

Lemma progress_messages_of_a_written_table_witness :
  exists t,
    report (fst (run (H := example_builtins) "mensa-argentina" true
                   web_empty_documents)) = Some t /\
    stdout (fst (run (H := example_builtins) "mensa-argentina" true
                   web_empty_documents)) =
      (progress "mensa-argentina" (length (rows t)) ++
       ["Writing output file"; "Drawing chart..."])%list.
Proof.
  eexists. split; [vm_compute; reflexivity|].
  apply (progress_messages_of_a_written_table (H := example_builtins)
           "mensa-argentina" true web_empty_documents).
  vm_compute. reflexivity.
Defined.

Lemma written_rows_are_complete_witness :
  exists t,
    report (fst (run (H := example_builtins) "mensa-argentina" true
                   web_empty_documents)) = Some t /\
    header t = headers /\
    Forall (fun row => length row = length headers /\ Forall is_Some row)
      (rows t).
Proof.
  eexists. split; [vm_compute; reflexivity|].
  apply (written_rows_are_complete (H := example_builtins)
           "mensa-argentina" true web_empty_documents).
  vm_compute. reflexivity.
Defined.

Lemma exit_status_zero_iff_witness :
  exit_status (snd (run (H := example_builtins) "mensa-argentina" false
                      web_empty_documents)) = 0 /\
  is_Some (report (fst (run (H := example_builtins) "mensa-argentina" false
                          web_empty_documents))).
Proof.
  split; [reflexivity|].
  apply (proj1 (exit_status_zero_iff (H := example_builtins)
                  "mensa-argentina" false web_empty_documents)).
  reflexivity.
Defined.

Lemma chart_has_a_line_per_row_witness :
  snd (run (H := example_builtins) "mensa-argentina" true
         web_empty_documents) = Done tt /\
  shown (fst (run (H := example_builtins) "mensa-argentina" true
                web_empty_documents)) = true /\
  map fst (lines (fst (run (H := example_builtins) "mensa-argentina" true
                         web_empty_documents))) =
    ["Bob"; "alice"; "alice"].
Proof.
  split; [vm_compute; reflexivity|].
  destruct (chart_has_a_line_per_row (H := example_builtins)
              "mensa-argentina" true web_empty_documents)
    as (_ & Hs & _); [vm_compute; reflexivity|].
  split; [exact Hs|vm_compute; reflexivity].
Defined.

Lemma error_message_iff_exit_1_witness :
  snd (run (H := example_builtins) "mensa-argentina" true
         web_third_unanswered) = Exit 1 /\
  last (stdout (fst (run (H := example_builtins) "mensa-argentina" true
                       web_third_unanswered))) = Some access_error.
Proof.
  split; [vm_compute; reflexivity|].
  apply (proj2 (error_message_iff_exit_1 (H := example_builtins)
                  "mensa-argentina" true web_third_unanswered)).
  vm_compute. reflexivity.
Defined.

Lemma undecodable_reply_is_uncaught_witness :
  requests (fst (run (H := example_builtins) "mensa-argentina" true
                   web_stats_garbled)) !! 3%nat
    = Some "https://api.chess.com/pub/player/ann/stats" /\
  web_stats_garbled 3 "https://api.chess.com/pub/player/ann/stats"
    = Garbage /\
  snd (run (H := example_builtins) "mensa-argentina" true web_stats_garbled)
    = Abort JSONDecodeError /\
  report (fst (run (H := example_builtins) "mensa-argentina" true
                 web_stats_garbled)) = None.
Proof.
  split; [vm_compute; reflexivity|]. split; [reflexivity|].
  destruct (undecodable_reply_is_uncaught (H := example_builtins)
              "mensa-argentina" true web_stats_garbled 3%nat
              "https://api.chess.com/pub/player/ann/stats")
    as (Hend & _ & _ & Hreport & _).
  - vm_compute. reflexivity.
  - reflexivity.
  - split; [exact Hend|exact Hreport].
Defined.

Lemma username_not_str_exits_unasked_witness :
  load_members (H := example_builtins)
    (VDict [("all_time", VList [VDict [("username", VInt 7)]])])
    = Ok [<["username" := VInt 7]> ∅] /\
  snd (run (H := example_builtins) "mensa-argentina" true
         web_numbered_member) = Exit 1 /\
  requests (fst (run (H := example_builtins) "mensa-argentina" true
                   web_numbered_member)) = [roster_url "mensa-argentina"].
Proof.
  split; [vm_compute; reflexivity|].
  destruct (username_not_str_exits_unasked (H := example_builtins)
              "mensa-argentina" true web_numbered_member
              (VDict [("all_time", VList [VDict [("username", VInt 7)]])])
              (<["username" := VInt 7]> ∅) [])
    as (Hend & Hreq & _).
  - reflexivity.
  - vm_compute. reflexivity.
  - intros [s Hs]. vm_compute in Hs. discriminate Hs.
  - split; [exact Hend|exact Hreq].
Defined.

Lemma unnamed_object_is_uncaught_witness :
  lists_objects roster_unnamed /\
  some_object_unnamed roster_unnamed /\
  snd (run (H := example_builtins) "mensa-argentina" true web_unnamed)
    = Abort KeyError.
Proof.
  assert (lists_objects roster_unnamed) as Hl.
  { repeat (constructor;
            [eexists; split; [reflexivity|];
             repeat (constructor; [by eexists|]); constructor|]).
    constructor. }
  assert (some_object_unnamed roster_unnamed) as Hu.
  { apply Exists_cons_tl, Exists_cons_hd.
    eexists. split; [reflexivity|].
    apply Exists_cons_tl, Exists_cons_hd. eexists. split; reflexivity. }
  split; [exact Hl|]. split; [exact Hu|].
  apply (unnamed_object_is_uncaught (H := example_builtins)
           "mensa-argentina" true web_unnamed roster_unnamed);
    [reflexivity|exact Hl|exact Hu].
Defined.

Lemma chart_is_drawn_iff_cells_convert_witness :
  exists t,
    report (fst (run (H := example_builtins) "mensa-argentina" true
                   web_null_rating)) = Some t /\
    snd (run (H := example_builtins) "mensa-argentina" true web_null_rating)
      = Abort TypeError /\
    lines (fst (run (H := example_builtins) "mensa-argentina" true
                  web_null_rating)) = [].
Proof.
  destruct (report (fst (run (H := example_builtins) "mensa-argentina" true
                           web_null_rating))) as [t|] eqn:Ht;
    [|vm_compute in Ht; discriminate Ht].
  exists t. split; [reflexivity|]. split; [vm_compute; reflexivity|].
  destruct (chart_is_drawn_iff_cells_convert (H := example_builtins)
              "mensa-argentina" true web_null_rating t Ht eq_refl)
    as [_ Hstop].
  destruct Hstop as (_ & Hl & _); [vm_compute; discriminate|exact Hl].
Defined.
